(** * CaptureWorkflow: the camera capture component, in its two variants

    The repository holds two near-identical React components named
    [CameraApp].  The first one (called the contour variant here) counts
    contours of area above 100 and keeps the count in [objectCount]; the
    second one (the pixel variant) counts non-zero pixels and keeps the
    count in [processedResult].  Both own a video reference, a canvas
    reference and the state variables [isStreaming], [capturedImage],
    [error] and [isProcessing].

    The embedding is shallow: every handler of the component is a function
    on an explicit [State] record.  State setters are applied in program
    order.  The only state variable a handler reads from its closure is
    [capturedImage], in [processImage]; it is read once, when the handler
    is entered, and kept for the part after the [await].

    An [await] suspends its handler.  React renders the pending state
    updates before the awaited promise settles, so the code after an
    [await] sees the references as the last render left them ([commit]).
    Runs are sequences of handlers that each run to completion; the two
    halves of [processImage] are also given separately, since the
    processing flag is only set between them.  Sequences of events
    ([play]) interleave the parts of handlers. *)

From Stdlib Require Import List ZArith String Bool Lia QArith.
Import ListNotations.
Local Open Scope string_scope.
Local Open Scope Z_scope.

(** ** Platform values *)

(** A media stream is identified by a number.  Its tracks are not modelled
    one by one: stopping every track of a stream records the stream in
    [stoppedStreams]. *)
Definition MediaStream := nat.

(** Outcome of [navigator.mediaDevices.getUserMedia]: the promise resolves
    with a stream or rejects. *)
Inductive MediaResult :=
| Granted (stream : MediaStream)
| Rejected (reason : string).

(** The video element behind [videoRef.current]; only [srcObject] matters. *)
Record VideoElement := mkVideo { srcObject : option MediaStream }.

(** Calls into the vision library, one constructor for each call site of
    the two [processImage] bodies.  Loop iterations carry their index. *)
Inductive MatName := MatGray | MatBlurred | MatThresh | MatHierarchy.

Inductive CvOp :=
| CvImread
| CvNewMat (which : MatName)
| CvCvtColor
| CvNewSize
| CvGaussianBlur
| CvThreshold
| CvNewMatVector
| CvFindContours
| CvSize (i : nat)
| CvGet (i : nat)
| CvContourArea (i : nat)
| CvCountNonZero
| CvDelete (handle : nat).

(** What the vision library does during one processing pass: which call
    throws (and with what message), the areas of the contours it finds and
    the number of non-zero pixels it counts. *)
Record Collaborator := mkCollaborator {
  throws : CvOp -> option string;
  areas : list Q;
  nonzero : Z
}.

(** The library side: a counter for fresh handles, the handles that were
    allocated and not yet deleted, and the calls made so far (most recent
    first). *)
Record CvHeap := mkHeap {
  cvNext : nat;
  cvLive : list nat;
  cvCalls : list CvOp
}.

(** ** Component state *)

Record State := mkState {
  canvasRef : bool;                    (* canvasRef.current is an element *)
  videoRef : option VideoElement;      (* videoRef.current *)
  isStreaming : bool;
  capturedImage : option string;
  objectCount : Z;                     (* contour variant *)
  processedResult : option Z;          (* pixel variant *)
  error : option string;
  isProcessing : bool;
  stoppedStreams : list MediaStream;   (* streams whose tracks were stopped *)
  heap : CvHeap
}.

Inductive Variant := ContourVariant | PixelVariant.

(** The canvas is rendered unconditionally, so its reference is attached
    exactly while the component is mounted. *)
Definition mounted (s : State) : bool := canvasRef s.

Definition set_canvasRef (b : bool) (s : State) : State :=
  mkState b (videoRef s) (isStreaming s) (capturedImage s) (objectCount s)
          (processedResult s) (error s) (isProcessing s) (stoppedStreams s) (heap s).

Definition set_videoRef (v : option VideoElement) (s : State) : State :=
  mkState (canvasRef s) v (isStreaming s) (capturedImage s) (objectCount s)
          (processedResult s) (error s) (isProcessing s) (stoppedStreams s) (heap s).

Definition setIsStreaming (b : bool) (s : State) : State :=
  mkState (canvasRef s) (videoRef s) b (capturedImage s) (objectCount s)
          (processedResult s) (error s) (isProcessing s) (stoppedStreams s) (heap s).

Definition setCapturedImage (c : option string) (s : State) : State :=
  mkState (canvasRef s) (videoRef s) (isStreaming s) c (objectCount s)
          (processedResult s) (error s) (isProcessing s) (stoppedStreams s) (heap s).

Definition setObjectCount (n : Z) (s : State) : State :=
  mkState (canvasRef s) (videoRef s) (isStreaming s) (capturedImage s) n
          (processedResult s) (error s) (isProcessing s) (stoppedStreams s) (heap s).

Definition setProcessedResult (r : option Z) (s : State) : State :=
  mkState (canvasRef s) (videoRef s) (isStreaming s) (capturedImage s) (objectCount s)
          r (error s) (isProcessing s) (stoppedStreams s) (heap s).

Definition setError (e : option string) (s : State) : State :=
  mkState (canvasRef s) (videoRef s) (isStreaming s) (capturedImage s) (objectCount s)
          (processedResult s) e (isProcessing s) (stoppedStreams s) (heap s).

Definition setIsProcessing (b : bool) (s : State) : State :=
  mkState (canvasRef s) (videoRef s) (isStreaming s) (capturedImage s) (objectCount s)
          (processedResult s) (error s) b (stoppedStreams s) (heap s).

Definition set_stoppedStreams (l : list MediaStream) (s : State) : State :=
  mkState (canvasRef s) (videoRef s) (isStreaming s) (capturedImage s) (objectCount s)
          (processedResult s) (error s) (isProcessing s) l (heap s).

Definition set_heap (h : CvHeap) (s : State) : State :=
  mkState (canvasRef s) (videoRef s) (isStreaming s) (capturedImage s) (objectCount s)
          (processedResult s) (error s) (isProcessing s) (stoppedStreams s) h.

(** State right after the first render: both references attached, no
    stream, no frame, [objectCount] 0, [processedResult] null. *)
Definition initial : State :=
  mkState true (Some (mkVideo None)) false None 0 None None false []
          (mkHeap 0 [] []).

(** JavaScript truthiness of a [string | null]: null and the empty string
    are falsy. *)
Definition truthy (c : option string) : bool :=
  match c with
  | Some EmptyString => false
  | Some _ => true
  | None => false
  end.

(** The stream bound to the video element, if any. *)
Definition boundStream (s : State) : option MediaStream :=
  match videoRef s with
  | Some v => srcObject v
  | None => None
  end.

(** ** Camera handlers *)

Definition nl : string := String (Ascii.ascii_of_nat 10) EmptyString.

Definition cameraErrorMessage : string :=
  "Camera access failed. Please check your camera permissions in both Chrome and MacOS:" ++ nl ++
  "1. Chrome: Click the camera icon in address bar" ++ nl ++
  "2. MacOS: System Settings > Privacy & Security > Camera".

(** [startCamera], given how the awaited [getUserMedia] settles.  Nothing
    happens before the [await]; the reference is read after it. *)
Definition startCamera (r : MediaResult) (s : State) : State :=
  match r with
  | Granted stream =>
      match videoRef s with
      | Some _ =>
          setError None
            (setIsStreaming true (set_videoRef (Some (mkVideo (Some stream))) s))
      | None => s
      end
  | Rejected _ => setError (Some cameraErrorMessage) s
  end.

Definition stopCamera (s : State) : State :=
  match videoRef s with
  | Some (mkVideo (Some stream)) =>
      setIsStreaming false
        (set_videoRef (Some (mkVideo None))
           (set_stoppedStreams (stream :: stoppedStreams s) s))
  | _ => s
  end.

(** [canvas.toDataURL] returns a data URL; [payload] is what follows the
    scheme (a lone comma for an empty canvas). *)
Definition toDataURL (payload : string) : string := "data:" ++ payload.

(** [captureImage]; [context] tells whether [getContext('2d')] returned a
    context.  The canvas size and the drawn pixels are not modelled. *)
Definition captureImage (context : bool) (payload : string) (s : State) : State :=
  match videoRef s with
  | Some _ =>
      if canvasRef s then
        if context then stopCamera (setCapturedImage (Some (toDataURL payload)) s)
        else s
      else s
  | None => s
  end.

(** ** Rendering

    What a re-render does to the references.  The contour variant renders
    the video element unconditionally.  The pixel variant renders it only
    while [capturedImage] is falsy, so a captured frame detaches the
    reference and a later render attaches a fresh element. *)
Definition attachVideo (s : State) : State :=
  match videoRef s with
  | Some _ => s
  | None => set_videoRef (Some (mkVideo None)) s
  end.

Definition commit (v : Variant) (s : State) : State :=
  if mounted s then
    match v with
    | ContourVariant => attachVideo s
    | PixelVariant =>
        if truthy (capturedImage s) then set_videoRef None s else attachVideo s
    end
  else s.

(** ** The vision library as a state and exception monad *)

Definition M (A : Type) : Type := State -> (string + A) * State.

Definition ret {A} (a : A) : M A := fun s => (inr a, s).

Definition bind {A B} (m : M A) (k : A -> M B) : M B :=
  fun s =>
    match m s with
    | (inr a, s1) => k a s1
    | (inl msg, s1) => (inl msg, s1)
    end.

Declare Scope cv_scope.
Delimit Scope cv_scope with cv.
Notation "x <- m ;; k" := (bind m (fun x => k))
  (at level 61, m at next level, right associativity) : cv_scope.
Notation "m ;; k" := (bind m (fun _ => k))
  (at level 61, right associativity) : cv_scope.

(** A state setter used inside a [try] block. *)
Definition lift (f : State -> State) : M unit := fun s => (inr tt, f s).

Definition logCall (op : CvOp) (s : State) : State :=
  set_heap (mkHeap (cvNext (heap s)) (cvLive (heap s)) (op :: cvCalls (heap s))) s.

(** A library call that returns [a] unless the library throws. *)
Definition cvValue {A} (K : Collaborator) (op : CvOp) (a : A) : M A :=
  fun s =>
    match throws K op with
    | Some msg => (inl msg, logCall op s)
    | None => (inr a, logCall op s)
    end.

(** A library call that allocates a structure and returns its handle. *)
Definition cvNew (K : Collaborator) (op : CvOp) : M nat :=
  fun s =>
    let s1 := logCall op s in
    match throws K op with
    | Some msg => (inl msg, s1)
    | None =>
        let h := cvNext (heap s1) in
        (inr h, set_heap (mkHeap (S h) (h :: cvLive (heap s1)) (cvCalls (heap s1))) s1)
    end.

Definition isLive (h : nat) (s : State) : bool :=
  existsb (Nat.eqb h) (cvLive (heap s)).

(** [delete()] on a handle: it releases a live structure and throws on one
    that was already deleted. *)
Definition cvDelete (h : nat) : M unit :=
  fun s =>
    let s1 := logCall (CvDelete h) s in
    if isLive h s then
      (inr tt,
       set_heap (mkHeap (cvNext (heap s1))
                        (filter (fun x => negb (Nat.eqb h x)) (cvLive (heap s1)))
                        (cvCalls (heap s1))) s1)
    else (inl "instance already deleted", s1).

Local Open Scope cv_scope.

(** The [try] block of the pixel variant. *)
Definition pixelBody (K : Collaborator) : M unit :=
  mat <- cvNew K CvImread ;;
  gray <- cvNew K (CvNewMat MatGray) ;;
  cvValue K CvCvtColor tt ;;
  result <- cvValue K CvCountNonZero (nonzero K) ;;
  lift (setProcessedResult (Some result)) ;;
  cvDelete mat ;;
  cvDelete gray.

(** [area > 100] *)
Definition qualifies (area : Q) : bool := negb (Qle_bool area (100 # 1)).

(** The counting loop of the contour variant.  [contours.size()] is
    evaluated at every test and [contours.get(i)] hands out a matrix of
    its own.  [fuel] is the number of iterations left: the loop is entered
    with [contours.size()], so the test fails exactly when it is used up. *)
Fixpoint countLoop (K : Collaborator) (fuel i : nat) (count : Z) : M Z :=
  match fuel with
  | O => _ <- cvValue K (CvSize i) (List.length (areas K)) ;; ret count
  | S fuel' =>
      n <- cvValue K (CvSize i) (List.length (areas K)) ;;
      if (i <? n)%nat then
        _ <- cvNew K (CvGet i) ;;
        area <- cvValue K (CvContourArea i) (nth i (areas K) (0 # 1)) ;;
        countLoop K fuel' (S i) (if qualifies area then count + 1 else count)
      else ret count
  end.

(** The [try] block of the contour variant. *)
Definition contourBody (K : Collaborator) : M unit :=
  mat <- cvNew K CvImread ;;
  gray <- cvNew K (CvNewMat MatGray) ;;
  cvValue K CvCvtColor tt ;;
  blurred <- cvNew K (CvNewMat MatBlurred) ;;
  cvValue K CvNewSize tt ;;
  cvValue K CvGaussianBlur tt ;;
  thresh <- cvNew K (CvNewMat MatThresh) ;;
  cvValue K CvThreshold tt ;;
  contours <- cvNew K CvNewMatVector ;;
  hierarchy <- cvNew K (CvNewMat MatHierarchy) ;;
  cvValue K CvFindContours tt ;;
  count <- countLoop K (List.length (areas K)) 0 0 ;;
  lift (setObjectCount count) ;;
  cvDelete mat ;;
  cvDelete gray ;;
  cvDelete blurred ;;
  cvDelete thresh ;;
  cvDelete contours ;;
  cvDelete hierarchy.

Definition tryBody (v : Variant) (K : Collaborator) : M unit :=
  match v with
  | ContourVariant => contourBody K
  | PixelVariant => pixelBody K
  end.

Local Close Scope cv_scope.

(** ** processImage *)

Definition unavailableMessage : string := "OpenCV.js not loaded or no image captured".

(** The part of [processImage] before the [await].  [cvLoaded] is the
    truthiness of [window.cv].  The boolean result tells whether the
    handler goes on to the [try] block. *)
Definition processImage_begin (v : Variant) (cvLoaded : bool) (s : State)
  : State * bool :=
  if negb cvLoaded || negb (truthy (capturedImage s)) then
    (setError (Some unavailableMessage) s, false)
  else
    match v with
    | ContourVariant => (setIsProcessing true s, true)
    | PixelVariant => (setError None (setIsProcessing true s), true)
    end.

(** The part after the image has loaded: [try], [catch], [finally].  The
    promise of [createImageFromDataUrl] has no rejection path. *)
Definition processImage_resume (v : Variant) (K : Collaborator) (s : State) : State :=
  match tryBody v K s with
  | (inr _, s1) => setIsProcessing false s1
  | (inl msg, s1) =>
      setIsProcessing false (setError (Some ("Error processing image: " ++ msg)) s1)
  end.

(** The whole handler, for an awaited image that loads.  The load that
    never settles is in [processImage_awaiting]. *)
Definition processImage (v : Variant) (cvLoaded : bool) (K : Collaborator)
  (s : State) : State :=
  match processImage_begin v cvLoaded s with
  | (s1, true) => processImage_resume v K s1
  | (s1, false) => s1
  end.

(** ** Retake *)

(** [resetCapture] of the contour variant.  The state updates are rendered
    before the awaited camera request settles. *)
Definition resetCapture (r : MediaResult) (s : State) : State :=
  startCamera r (commit ContourVariant (setObjectCount 0 (setCapturedImage None s))).

(** [retakeImage] of the pixel variant. *)
Definition retakeImage (r : MediaResult) (s : State) : State :=
  startCamera r (commit PixelVariant (setProcessedResult None (setCapturedImage None s))).

Definition retake (v : Variant) : MediaResult -> State -> State :=
  match v with
  | ContourVariant => resetCapture
  | PixelVariant => retakeImage
  end.

(** ** Teardown

    The effect cleanup calls [stopCamera].  [detached] tells whether the
    references were already cleared when the cleanup runs. *)
Definition detach (s : State) : State := set_videoRef None (set_canvasRef false s).

Definition teardown (detached : bool) (s : State) : State :=
  if detached then stopCamera (detach s) else detach (stopCamera s).

(** ** Controls

    The buttons the component renders, with the conditions of the JSX. *)
Inductive Control := StartButton | CaptureButton | ProcessButton | RetakeButton.

Definition rendered (s : State) (c : Control) : bool :=
  match c with
  | StartButton => negb (isStreaming s) && negb (truthy (capturedImage s))
  | CaptureButton => isStreaming s
  | ProcessButton => truthy (capturedImage s)
  | RetakeButton => truthy (capturedImage s)
  end.

(** The [disabled] attribute passed to each button. *)
Definition disabled (s : State) (c : Control) : bool :=
  match c with
  | ProcessButton => isProcessing s
  | _ => false
  end.

(** ** Operations and runs

    An operation is a handler run to completion, together with what the
    platform answers during the run. *)
Inductive Op :=
| OpStartCamera (r : MediaResult)
| OpCaptureImage (context : bool) (payload : string)
| OpProcessImage (cvLoaded : bool) (K : Collaborator)
| OpRetake (r : MediaResult)
| OpTeardown (detached : bool).

Definition handler (v : Variant) (op : Op) : State -> State :=
  match op with
  | OpStartCamera r => startCamera r
  | OpCaptureImage context payload => captureImage context payload
  | OpProcessImage cvLoaded K => processImage v cvLoaded K
  | OpRetake r => retake v r
  | OpTeardown detached => teardown detached
  end.

(** One operation on a mounted component, followed by the re-render.  An
    unmounted component runs nothing. *)
Definition step (v : Variant) (op : Op) (s : State) : State :=
  if mounted s then commit v (handler v op s) else s.

Definition run (v : Variant) (ops : list Op) (s : State) : State :=
  fold_left (fun acc op => step v op acc) ops s.

Definition controlOf (op : Op) : option Control :=
  match op with
  | OpStartCamera _ => Some StartButton
  | OpCaptureImage _ _ => Some CaptureButton
  | OpProcessImage _ _ => Some ProcessButton
  | OpRetake _ => Some RetakeButton
  | OpTeardown _ => None
  end.

(** The control of the operation is on screen (unmounting needs none). *)
Definition offered (s : State) (op : Op) : bool :=
  match controlOf op with
  | Some c => rendered s c
  | None => true
  end.

(** Every operation of the run is invoked through a rendered control. *)
Fixpoint offeredRun (v : Variant) (ops : list Op) (s : State) : bool :=
  match ops with
  | [] => true
  | op :: rest => offered s op && offeredRun v rest (step v op s)
  end.

(** Modelled from the spec: the [Button] component of
    [components/ui/button] is not among the sources.  Following the
    disabled-action contract of the specification, a button that is
    disabled ignores its activation; one that is not rendered cannot be
    activated at all. *)
Definition clickable (s : State) (c : Control) : bool :=
  rendered s c && negb (disabled s c).

(** A user activating the control of [op]. *)
Definition click (v : Variant) (op : Op) (s : State) : State :=
  match controlOf op with
  | Some c => if clickable s c then step v op s else s
  | None => step v op s
  end.

(** ** Observations *)

(** StreamHandle active: the flag is set and a stream is bound. *)
Definition streamActive (s : State) : bool :=
  isStreaming s && match boundStream s with Some _ => true | None => false end.

(** CapturedFrame present: [capturedImage] is not null. *)
Definition framePresent (s : State) : bool :=
  match capturedImage s with Some _ => true | None => false end.

(** ProcessingResult as a number.  The contour variant has no null: it
    starts at 0, is reset to 0 and is displayed only when positive. *)
Definition resultAbsent (v : Variant) (s : State) : Prop :=
  match v with
  | ContourVariant => objectCount s = 0
  | PixelVariant => processedResult s = None
  end.

Definition resultIs (v : Variant) (k : Z) (s : State) : Prop :=
  match v with
  | ContourVariant => objectCount s = k
  | PixelVariant => processedResult s = Some k
  end.

(** The count the collaborator yields in each variant. *)
Definition yieldedCount (v : Variant) (K : Collaborator) : Z :=
  match v with
  | ContourVariant => Z.of_nat (List.length (filter qualifies (areas K)))
  | PixelVariant => nonzero K
  end.

(** The state called Captured: a frame, no stream, no pass in flight. *)
Definition Captured (s : State) : Prop :=
  truthy (capturedImage s) = true /\ isStreaming s = false /\ isProcessing s = false.

Definition neverThrows (K : Collaborator) : Prop := forall op, throws K op = None.

(** A collaborator that never throws. *)
Definition quiet (found : list Q) (pixels : Z) : Collaborator :=
  mkCollaborator (fun _ => None) found pixels.

(** A collaborator whose [cvtColor] throws. *)
Definition cvtColorFails (msg : string) : Collaborator :=
  mkCollaborator
    (fun op => match op with CvCvtColor => Some msg | _ => None end) [] 0.

(** ** Notions used to reason about a processing pass *)

(** The guard of [processImage]. *)
Definition guardFails (cvLoaded : bool) (s : State) : bool :=
  negb cvLoaded || negb (truthy (capturedImage s)).

(** The state in which the [try] block is entered. *)
Definition entered (v : Variant) (s : State) : State :=
  match v with
  | ContourVariant => setIsProcessing true s
  | PixelVariant => setError None (setIsProcessing true s)
  end.

(** A pass that completes without a failure. *)
Definition succeeds (v : Variant) (cvLoaded : bool) (K : Collaborator) (s : State) : bool :=
  negb (guardFails cvLoaded s) &&
  match tryBody v K (entered v s) with
  | (inr _, _) => true
  | (inl _, _) => false
  end.

(** Two states used in examples: a frame has just been captured, and a
    pass of the pixel variant is in flight on it. *)
Definition capturedState (v : Variant) : State :=
  run v [OpStartCamera (Granted 1%nat); OpCaptureImage true ","] initial.

Definition processingState : State :=
  fst (processImage_begin PixelVariant true (capturedState PixelVariant)).

(** What the [try] block never touches, and the two result variables. *)
Definition workflow (s : State) :=
  (canvasRef s, videoRef s, isStreaming s, capturedImage s, error s,
   isProcessing s, stoppedStreams s).

Definition results (s : State) := (objectCount s, processedResult s).

(** The handles of [hs] are live and older than the next fresh one. *)
Definition owns (hs : list nat) (s : State) : Prop :=
  Forall (fun h => isLive h s = true /\ (h < cvNext (heap s))%nat) hs.

(** The assertion carried through the [try] block entered in [s0]. *)
Definition holds (s0 : State) (res : Z * option Z) (hs : list nat) (s : State) : Prop :=
  workflow s = workflow s0 /\ results s = res /\ owns hs s /\ NoDup hs.

(** A triple: from [P], [m] returns into [Q] or throws into [E]. *)
Definition triple {A} (E : State -> Prop) (P : State -> Prop) (m : M A) (Q : A -> State -> Prop) : Prop :=
  forall s, P s ->
    match m s with
    | (inr a, s1) => Q a s1
    | (inl _, s1) => E s1
    end.

Definition qualifying (l : list Q) : Z := Z.of_nat (List.length (filter qualifies l)).

(** The result variables after a pass that returned normally. *)
Definition newResults (K : Collaborator) (s0 : State) (v : Variant) : Z * option Z :=
  match v with
  | ContourVariant => (yieldedCount ContourVariant K, processedResult s0)
  | PixelVariant => (objectCount s0, Some (yieldedCount PixelVariant K))
  end.

(** ** Parts of handlers

    A handler that awaits runs in two parts, and parts of other handlers
    may run between them: [startCamera] does nothing before its request
    settles, [processImage] has the halves [processImage_begin] and
    [processImage_resume], and a retake is its two state updates followed,
    later, by the part of [startCamera] after the await.  An [Event] is
    one such part; every execution of the component is a sequence of
    events, and a handler run to completion is the sequence of its parts
    with nothing in between.  A pass whose image never loads is a
    [EvProcessBegin] that no [EvProcessResume] follows. *)

(** The two state updates that open [resetCapture] and [retakeImage]. *)
Definition retakeBegin (v : Variant) (s : State) : State :=
  match v with
  | ContourVariant => setObjectCount 0 (setCapturedImage None s)
  | PixelVariant => setProcessedResult None (setCapturedImage None s)
  end.

Inductive Event :=
| EvStartSettles (r : MediaResult)
| EvCapture (context : bool) (payload : string)
| EvProcessBegin (cvLoaded : bool)
| EvProcessResume (K : Collaborator)
| EvRetakeBegin
| EvTeardown (detached : bool).

Definition part (v : Variant) (e : Event) : State -> State :=
  match e with
  | EvStartSettles r => startCamera r
  | EvCapture context payload => captureImage context payload
  | EvProcessBegin cvLoaded => fun s => fst (processImage_begin v cvLoaded s)
  | EvProcessResume K => processImage_resume v K
  | EvRetakeBegin => retakeBegin v
  | EvTeardown detached => teardown detached
  end.

(** One event, followed by the re-render.  On an unmounted component no
    handler can be started and state updates are dropped; the second half
    of a pass that was in flight still makes its library calls. *)
Definition fire (v : Variant) (e : Event) (s : State) : State :=
  if mounted s then commit v (part v e s)
  else
    match e with
    | EvProcessResume K => set_heap (heap (processImage_resume v K s)) s
    | _ => s
    end.

Definition play (v : Variant) (events : list Event) (s : State) : State :=
  fold_left (fun acc e => fire v e acc) events s.

(** A granted camera request settles while a frame is present and the
    video element is mounted. *)
Definition overlaps (e : Event) (s : State) : bool :=
  match e with
  | EvStartSettles (Granted _) =>
      mounted s && framePresent s
      && match videoRef s with Some _ => true | None => false end
  | _ => false
  end.

Fixpoint noOverlap (v : Variant) (events : list Event) (s : State) : bool :=
  match events with
  | [] => true
  | e :: rest => negb (overlaps e s) && noOverlap v rest (fire v e s)
  end.

(** The sequence is of the pixel variant, or no granted camera request
    of it settles over a frame. *)
Definition undisturbed (v : Variant) (events : list Event) (s : State) : Prop :=
  v = PixelVariant \/ noOverlap v events s = true.

(** The [try] block returns normally. *)
Definition returns (v : Variant) (K : Collaborator) (s : State) : bool :=
  match tryBody v K s with
  | (inr _, _) => true
  | (inl _, _) => false
  end.

(** The parts of an operation that runs to completion. *)
Definition steps (v : Variant) (op : Op) (s : State) : list Event :=
  if mounted s then
    match op with
    | OpStartCamera r => [EvStartSettles r]
    | OpCaptureImage context payload => [EvCapture context payload]
    | OpProcessImage cvLoaded K =>
        if guardFails cvLoaded s then [EvProcessBegin cvLoaded]
        else [EvProcessBegin cvLoaded; EvProcessResume K]
    | OpRetake r => [EvRetakeBegin; EvStartSettles r]
    | OpTeardown detached => [EvTeardown detached]
    end
  else [].

Fixpoint stepsOf (v : Variant) (ops : list Op) (s : State) : list Event :=
  match ops with
  | [] => []
  | op :: rest => (steps v op s ++ stepsOf v rest (step v op s))%list
  end.

(** [processImage] with the image load made explicit: the promise of
    [createImageFromDataUrl] resolves when the image has loaded ([Some],
    with what the library then does) or stays pending for good ([None]),
    which leaves the handler suspended after its first half. *)
Definition processImage_awaiting (v : Variant) (cvLoaded : bool)
  (load : option Collaborator) (s : State) : State :=
  match processImage_begin v cvLoaded s with
  | (s1, true) =>
      match load with
      | Some K => processImage_resume v K s1
      | None => s1
      end
  | (s1, false) => s1
  end.

(** Start, capture, and a retake made while a pass is in flight. *)
Definition retakeDuringPass (K : Collaborator) : list Event :=
  [EvStartSettles (Granted 1%nat); EvCapture true ","; EvProcessBegin true;
   EvRetakeBegin; EvStartSettles (Granted 2%nat); EvProcessResume K].

(** ** Notions used to reason about runs *)

(** At most one of stream and frame. *)
Definition exclusive (s : State) : Prop :=
  streamActive s && framePresent s = false.

(** What every handler keeps true: a frame is a non-empty string and
    excludes the streaming flag; on a mounted component the flag implies a
    bound stream. *)
Definition coherent (s : State) : Prop :=
  (framePresent s = true ->
   truthy (capturedImage s) = true /\ isStreaming s = false) /\
  (mounted s = true -> isStreaming s = true -> boundStream s <> None).

(** What holds after every re-render: in the pixel variant a frame leaves
    no video element. *)
Definition consistent (v : Variant) (s : State) : Prop :=
  coherent s /\
  (v = PixelVariant -> mounted s = true -> framePresent s = true ->
   videoRef s = None).

(** The operation is a step that fails: a rejected camera request, or a
    processing pass stopped by its guard or by an exception. *)
Definition failed (v : Variant) (op : Op) (s : State) : bool :=
  match op with
  | OpStartCamera (Rejected _) => true
  | OpRetake (Rejected _) => true
  | OpProcessImage cvLoaded K => negb (succeeds v cvLoaded K s)
  | _ => false
  end.

(** Bookkeeping for "a successful processing call has set the result since
    the last retake": a retake clears the mark, a pass whose [try] block
    returns normally sets it, nothing else touches it. *)
Definition mark (v : Variant) (e : Event) (s : State) (was : bool) : bool :=
  if mounted s then
    match e with
    | EvRetakeBegin => false
    | EvProcessResume K => returns v K s || was
    | _ => was
    end
  else was.

Fixpoint setSinceRetake (v : Variant) (events : list Event) (s : State) (was : bool) : bool :=
  match events with
  | [] => was
  | e :: rest => setSinceRetake v rest (fire v e s) (mark v e s was)
  end.

(** ** States used in examples *)

(** Streaming, with an error left by a processing attempt made before any
    frame was captured. *)
Definition erroredStreaming : State :=
  run PixelVariant
      [OpStartCamera (Granted 1%nat); OpProcessImage true (quiet [] 0)] initial.

(** A captured frame of the contour variant, with an error left by a
    processing attempt made before the library was loaded. *)
Definition erroredCaptured : State :=
  run ContourVariant
      [OpStartCamera (Granted 1%nat); OpCaptureImage true ",";
       OpProcessImage false (quiet [] 0)] initial.

(** Start, capture, and a second camera request that is granted. *)
Definition secondStart : list Op :=
  [OpStartCamera (Granted 1%nat); OpCaptureImage true ",";
   OpStartCamera (Granted 2%nat)].

(** ** What the component displays *)

(** The result banner: [objectCount > 0] in the contour variant,
    [processedResult !== null] in the pixel variant. *)
Definition resultShown (v : Variant) (s : State) : bool :=
  match v with
  | ContourVariant => 0 <? objectCount s
  | PixelVariant =>
      match processedResult s with Some _ => true | None => false end
  end.

(** The error banner: [error && ...]. *)
Definition errorShown (s : State) : bool := truthy (error s).

(** How many of the three groups of buttons are on screen: start, capture,
    and the pair process and retake. *)
Definition groupsShown (s : State) : nat :=
  List.length
    (filter (rendered s) [StartButton; CaptureButton; ProcessButton]).

(** ** Accounting for streams and library structures *)

(** The two state updates that open a retake. *)
Definition clearResult (v : Variant) (s : State) : State :=
  match v with
  | ContourVariant => setObjectCount 0 s
  | PixelVariant => setProcessedResult None s
  end.

(** The streams the platform grants during a run. *)
Definition grantOf (op : Op) : list MediaStream :=
  match op with
  | OpStartCamera (Granted stream) => [stream]
  | OpRetake (Granted stream) => [stream]
  | _ => []
  end.

Definition grants (ops : list Op) : list MediaStream := flat_map grantOf ops.

Definition isTeardown (op : Op) : bool :=
  match op with OpTeardown _ => true | _ => false end.

(** The stream is still under the control of the component, or its
    tracks were stopped. *)
Definition accounted (stream : MediaStream) (s : State) : Prop :=
  boundStream s = Some stream \/ In stream (stoppedStreams s).

(** What a run through rendered controls keeps true on a mounted
    component, besides [consistent]: a stream is bound only while the flag
    is set, and the video element is there whenever the JSX renders it. *)
Definition sound (v : Variant) (s : State) : Prop :=
  mounted s = true /\
  consistent v s /\
  (isStreaming s = false -> boundStream s = None) /\
  (v = ContourVariant \/ truthy (capturedImage s) = false -> videoRef s <> None).

(** The call is not a [delete()]. *)
Definition notDelete (op : CvOp) : bool :=
  match op with CvDelete _ => false | _ => true end.

(** The handles that [delete()] was called on, most recent first. *)
Definition deleted (calls : list CvOp) : list nat :=
  flat_map (fun op => match op with CvDelete h => [h] | _ => [] end) calls.

(** Every live handle was handed out by the counter. *)
Definition tidyHeap (s : State) : Prop :=
  Forall (fun h => (h < cvNext (heap s))%nat) (cvLive (heap s)).

(** The library side during a pass entered in [s0]: [own] are the
    structures the pass has allocated and not deleted, in allocation
    order; [gone] are the handles it has deleted, most recent first. *)
Definition ledger (s0 : State) (own gone : list nat) (s : State) : Prop :=
  (forall h, In h (cvLive (heap s)) <-> In h own \/ In h (cvLive (heap s0))) /\
  Forall (fun h => (cvNext (heap s0) <= h < cvNext (heap s))%nat) own /\
  NoDup own /\
  (cvNext (heap s0) <= cvNext (heap s))%nat /\
  deleted (cvCalls (heap s)) = (gone ++ deleted (cvCalls (heap s0)))%list.

(** The pass has deleted nothing so far. *)
Definition nothingReleased (s0 s : State) : Prop :=
  exists own, ledger s0 own [] s.

(** The outcome of the [try] block, when it throws. *)
Definition thrownMessage (v : Variant) (K : Collaborator) (s : State) : option string :=
  match tryBody v K (entered v s) with
  | (inl msg, _) => Some msg
  | (inr _, _) => None
  end.

(** * Reasoning about the [try] block *)

Lemma isLive_In h s : isLive h s = true <-> In h (cvLive (heap s)).
Proof.
  unfold isLive. rewrite existsb_exists. split.
  - intros [x [Hin Heq]]. apply Nat.eqb_eq in Heq. now subst.
  - intros Hin. exists h. split; [assumption | apply Nat.eqb_refl].
Qed.

Lemma skipn_nth {A} (d : A) (l : list A) (i : nat) :
  (i < List.length l)%nat -> skipn i l = nth i l d :: skipn (S i) l.
Proof.
  revert i. induction l as [|a l IH]; intros i Hi; simpl in Hi.
  - lia.
  - destruct i as [|i]; [reflexivity|].
    change (skipn i l = nth i l d :: skipn (S i) l). apply IH. lia.
Qed.

Lemma NoDup_snoc {A} (l : list A) (a : A) :
  NoDup l -> ~ In a l -> NoDup (l ++ [a]).
Proof.
  induction 1 as [|x l Hx Hl IH]; intros Ha; simpl.
  - constructor; [intros [] | constructor].
  - constructor.
    + rewrite in_app_iff. intros [H | [H | []]]; [now apply Hx|].
      apply Ha. now left.
    + apply IH. intros H. apply Ha. now right.
Qed.

Section TryBlock.

Variable K : Collaborator.
Variable s0 : State.              (* the state on entry *)
Variable E : State -> Prop.       (* what holds when the block throws *)
Hypothesis thrown :
  forall op msg s,
    throws K op = Some msg ->
    workflow s = workflow s0 -> results s = results s0 -> E s.

Lemma triple_bind {A B} P (m : M A) Q (k : A -> M B) R :
  triple E P m Q -> (forall a, triple E (Q a) (k a) R) -> triple E P (bind m k) R.
Proof.
  intros Hm Hk s HP. unfold bind. specialize (Hm s HP).
  destruct (m s) as [[msg | a] s1]; [assumption|].
  apply Hk. assumption.
Qed.

Lemma triple_pure {A} (phi : Prop) P (m : M A) Q :
  (phi -> triple E P m Q) -> triple E (fun s => phi /\ P s) m Q.
Proof. intros H s [Hphi HP]. now apply H. Qed.

Lemma triple_ret {A} (a : A) P : triple E P (ret a) (fun x s => x = a /\ P s).
Proof. intros s HP. simpl. now split. Qed.

Lemma owns_logCall hs op s : owns hs s -> owns hs (logCall op s).
Proof. intros H. exact H. Qed.

Lemma triple_cvValue {A} hs op (a : A) :
  triple E (holds s0 (results s0) hs) (cvValue K op a)
         (fun x s => x = a /\ holds s0 (results s0) hs s).
Proof.
  intros s (Hw & Hr & Ho & Hn). unfold cvValue.
  destruct (throws K op) as [msg|] eqn:Hop.
  - eapply thrown; eauto.
  - repeat split; assumption.
Qed.

Lemma triple_cvCall hs op :
  triple E (holds s0 (results s0) hs) (cvValue K op tt)
         (fun _ s => holds s0 (results s0) hs s).
Proof.
  intros s H. pose proof (triple_cvValue hs op tt s H) as H1.
  destruct (cvValue K op tt s) as [[msg | x] s1]; [assumption | apply H1].
Qed.

Lemma owns_alloc hs s :
  owns hs s ->
  owns hs (set_heap (mkHeap (S (cvNext (heap s))) (cvNext (heap s) :: cvLive (heap s))
                            (cvCalls (heap s))) s).
Proof.
  unfold owns. rewrite !Forall_forall. intros H h Hin.
  destruct (H h Hin) as [Hl Hlt]. split.
  - apply isLive_In. simpl. right. now apply isLive_In.
  - simpl. lia.
Qed.

Lemma triple_cvNew hs op :
  triple E (holds s0 (results s0) hs) (cvNew K op)
         (fun h s => holds s0 (results s0) (hs ++ [h]) s).
Proof.
  intros s (Hw & Hr & Ho & Hn). unfold cvNew.
  destruct (throws K op) as [msg|] eqn:Hop.
  - eapply thrown; eauto.
  - split; [exact Hw|]. split; [exact Hr|]. split.
    + apply Forall_app. split.
      * apply (owns_alloc hs (logCall op s)). exact Ho.
      * constructor; [|constructor]. split.
        -- apply isLive_In. simpl. now left.
        -- simpl. lia.
    + apply NoDup_snoc; [assumption|].
      intros Hin. unfold owns in Ho. rewrite Forall_forall in Ho.
      destruct (Ho _ Hin) as [_ Hlt]. simpl in Hlt. lia.
Qed.

(** An allocation whose handle is dropped. *)
Lemma triple_cvNew_drop hs op :
  triple E (holds s0 (results s0) hs) (cvNew K op) (fun _ s => holds s0 (results s0) hs s).
Proof.
  intros s H. pose proof (triple_cvNew hs op s H) as H1.
  destruct (cvNew K op s) as [[msg | h] s1]; [assumption|].
  destruct H1 as (Hw & Hr & Ho & Hn).
  split; [exact Hw|]. split; [exact Hr|]. split.
  - apply Forall_app in Ho. apply Ho.
  - destruct H as (_ & _ & _ & Hn0). exact Hn0.
Qed.

Lemma qualifying_skipn i :
  (i < List.length (areas K))%nat ->
  qualifying (skipn i (areas K)) =
  (if qualifies (nth i (areas K) (0 # 1)) then 1 else 0)
  + qualifying (skipn (S i) (areas K)).
Proof.
  intros Hi. rewrite (skipn_nth (0 # 1) (areas K) i Hi) at 1.
  unfold qualifying. cbn [filter].
  destruct (qualifies (nth i (areas K) (0 # 1))); cbn [List.length]; lia.
Qed.

Lemma triple_countLoop hs fuel :
  forall i count,
    (i + fuel = List.length (areas K))%nat ->
    triple E (holds s0 (results s0) hs) (countLoop K fuel i count)
           (fun r s => r = count + qualifying (skipn i (areas K))
                       /\ holds s0 (results s0) hs s).
Proof.
  induction fuel as [|fuel IH]; intros i count Hlen; cbn [countLoop].
  - eapply triple_bind; [apply triple_cvValue|].
    intros n. apply triple_pure. intros _ s Hs. simpl. split; [|assumption].
    rewrite skipn_all2 by lia. unfold qualifying. simpl. lia.
  - eapply triple_bind; [apply triple_cvValue|].
    intros n. apply triple_pure. intros ->.
    assert (Hi : (i < List.length (areas K))%nat) by lia.
    apply Nat.ltb_lt in Hi as Hb. rewrite Hb.
    eapply triple_bind; [apply triple_cvNew_drop|]. intros ?.
    eapply triple_bind; [apply triple_cvValue|].
    intros area. apply triple_pure. intros ->.
    intros s Hs. specialize (IH (S i)
      (if qualifies (nth i (areas K) (0 # 1)) then count + 1 else count)
      ltac:(lia) s Hs).
    destruct (countLoop K fuel (S i) _ s) as [[msg | r] s1]; [assumption|].
    destruct IH as [-> Hh]. split; [|assumption].
    rewrite (qualifying_skipn i Hi).
    destruct (qualifies (nth i (areas K) (0 # 1))); lia.
Qed.

Lemma triple_setObjectCount hs k :
  triple E (holds s0 (results s0) hs) (lift (setObjectCount k))
         (fun _ s => holds s0 (k, processedResult s0) hs s).
Proof.
  intros s (Hw & Hr & Ho & Hn). simpl. unfold holds.
  split; [exact Hw|]. split; [|split; [exact Ho | exact Hn]].
  unfold results in *. simpl. congruence.
Qed.

Lemma triple_setProcessedResult hs k :
  triple E (holds s0 (results s0) hs) (lift (setProcessedResult (Some k)))
         (fun _ s => holds s0 (objectCount s0, Some k) hs s).
Proof.
  intros s (Hw & Hr & Ho & Hn). simpl. unfold holds.
  split; [exact Hw|]. split; [|split; [exact Ho | exact Hn]].
  unfold results in *. simpl. congruence.
Qed.

(** Deleting an owned handle cannot throw. *)
Lemma triple_cvDelete res h hs :
  triple E (holds s0 res (h :: hs)) (cvDelete h) (fun _ s => holds s0 res hs s).
Proof.
  intros s (Hw & Hr & Ho & Hn). unfold cvDelete.
  destruct (Forall_inv Ho) as [Hlive Hlt].
  pose proof (Forall_inv_tail Ho) as Hrest.
  apply NoDup_cons_iff in Hn. destruct Hn as [Hnotin Hnodup].
  rewrite Hlive.
  split; [exact Hw|]. split; [exact Hr|]. split; [|exact Hnodup].
  unfold owns in *. rewrite Forall_forall in *. intros x Hx.
  destruct (Hrest x Hx) as [Hxl Hxlt]. split; [|exact Hxlt].
  apply isLive_In. simpl. apply filter_In. split.
  - now apply isLive_In.
  - apply negb_true_iff. apply Nat.eqb_neq. intros Heq.
    apply Hnotin. rewrite Heq. exact Hx.
Qed.

Lemma triple_tryBody v :
  triple E (holds s0 (results s0) []) (tryBody v K) (fun _ s => holds s0 (newResults K s0 v) [] s).
Proof.
  destruct v; cbn [tryBody newResults yieldedCount].
  - unfold contourBody.
    eapply triple_bind; [apply triple_cvNew|]. intros mat.
    eapply triple_bind; [apply triple_cvNew|]. intros gray.
    eapply triple_bind; [apply triple_cvCall|]. intros ?.
    eapply triple_bind; [apply triple_cvNew|]. intros blurred.
    eapply triple_bind; [apply triple_cvCall|]. intros ?.
    eapply triple_bind; [apply triple_cvCall|]. intros ?.
    eapply triple_bind; [apply triple_cvNew|]. intros thresh.
    eapply triple_bind; [apply triple_cvCall|]. intros ?.
    eapply triple_bind; [apply triple_cvNew|]. intros contours.
    eapply triple_bind; [apply triple_cvNew|]. intros hierarchy.
    eapply triple_bind; [apply triple_cvCall|]. intros ?.
    eapply triple_bind; [apply triple_countLoop; reflexivity|]. intros count.
    apply triple_pure. intros ->. rewrite skipn_O, Z.add_0_l.
    eapply triple_bind; [apply triple_setObjectCount|]. intros ?.
    cbn [app].
    eapply triple_bind; [apply triple_cvDelete|]. intros ?.
    eapply triple_bind; [apply triple_cvDelete|]. intros ?.
    eapply triple_bind; [apply triple_cvDelete|]. intros ?.
    eapply triple_bind; [apply triple_cvDelete|]. intros ?.
    eapply triple_bind; [apply triple_cvDelete|]. intros ?.
    apply triple_cvDelete.
  - unfold pixelBody.
    eapply triple_bind; [apply triple_cvNew|]. intros mat.
    eapply triple_bind; [apply triple_cvNew|]. intros gray.
    eapply triple_bind; [apply triple_cvCall|]. intros ?.
    eapply triple_bind; [apply triple_cvValue|]. intros result.
    apply triple_pure. intros ->.
    eapply triple_bind; [apply triple_setProcessedResult|]. intros ?.
    cbn [app].
    eapply triple_bind; [apply triple_cvDelete|]. intros ?.
    apply triple_cvDelete.
Qed.

End TryBlock.

Lemma holds_entry s0 : holds s0 (results s0) [] s0.
Proof. repeat split; constructor. Qed.

(** Whatever the library does, the [try] block leaves the workflow alone;
    it changes the result exactly when it returns normally. *)
Lemma tryBody_outcome v K s0 :
  match tryBody v K s0 with
  | (inr _, s1) => workflow s1 = workflow s0 /\ results s1 = newResults K s0 v
  | (inl _, s1) => workflow s1 = workflow s0 /\ results s1 = results s0
  end.
Proof.
  pose proof (triple_tryBody K s0
                (fun s => workflow s = workflow s0 /\ results s = results s0)
                (fun _ _ s _ Hw Hr => conj Hw Hr) v s0 (holds_entry s0)) as H.
  destruct (tryBody v K s0) as [[msg | []] s1]; [exact H|].
  destruct H as (Hw & Hr & _). now split.
Qed.

(** With a library that never throws, the [try] block returns normally. *)
Lemma tryBody_returns v K s0 :
  neverThrows K -> exists s1, tryBody v K s0 = (inr tt, s1).
Proof.
  intros Hq.
  assert (Hthrown : forall op msg s, throws K op = Some msg ->
            workflow s = workflow s0 -> results s = results s0 -> False).
  { intros op msg s Hop _ _. rewrite Hq in Hop. discriminate. }
  pose proof (triple_tryBody K s0 (fun _ => False) Hthrown v s0 (holds_entry s0)) as H.
  destruct (tryBody v K s0) as [[msg | []] s1]; [contradiction|].
  now exists s1.
Qed.

Lemma workflow_fields s1 s0 :
  workflow s1 = workflow s0 ->
  canvasRef s1 = canvasRef s0 /\ videoRef s1 = videoRef s0 /\
  isStreaming s1 = isStreaming s0 /\ capturedImage s1 = capturedImage s0 /\
  error s1 = error s0 /\ isProcessing s1 = isProcessing s0 /\
  stoppedStreams s1 = stoppedStreams s0.
Proof. unfold workflow. intros H. injection H. intros. repeat split; assumption. Qed.

Lemma results_fields s1 n r :
  results s1 = (n, r) -> objectCount s1 = n /\ processedResult s1 = r.
Proof. unfold results. intros H. injection H. now split. Qed.

Lemma newResults_resultIs v K s0 s1 :
  results s1 = newResults K s0 v -> resultIs v (yieldedCount v K) s1.
Proof.
  intros H. destruct v; apply results_fields in H; destruct H as [Hn Hr];
    simpl; assumption.
Qed.

Lemma processImage_guarded v cvLoaded K s :
  guardFails cvLoaded s = true ->
  processImage v cvLoaded K s = setError (Some unavailableMessage) s.
Proof.
  unfold guardFails, processImage, processImage_begin. intros ->. reflexivity.
Qed.

Lemma processImage_passed v cvLoaded K s :
  guardFails cvLoaded s = false ->
  processImage v cvLoaded K s = processImage_resume v K (entered v s).
Proof.
  unfold guardFails, processImage, processImage_begin. intros ->.
  destruct v; reflexivity.
Qed.

Lemma processImage_camera v cvLoaded K s :
  canvasRef (processImage v cvLoaded K s) = canvasRef s /\
  videoRef (processImage v cvLoaded K s) = videoRef s /\
  isStreaming (processImage v cvLoaded K s) = isStreaming s /\
  capturedImage (processImage v cvLoaded K s) = capturedImage s /\
  stoppedStreams (processImage v cvLoaded K s) = stoppedStreams s.
Proof.
  destruct (guardFails cvLoaded s) eqn:Hg.
  - rewrite (processImage_guarded _ _ _ _ Hg). repeat split.
  - rewrite (processImage_passed _ _ _ _ Hg). unfold processImage_resume.
    pose proof (tryBody_outcome v K (entered v s)) as H.
    destruct (tryBody v K (entered v s)) as [[msg | u] s1];
      destruct H as [Hw _]; apply workflow_fields in Hw;
      destruct Hw as (H1 & H2 & H3 & H4 & _ & _ & H7);
      destruct v; simpl in *; repeat split; assumption.
Qed.

Lemma processImage_failure_results v cvLoaded K s :
  succeeds v cvLoaded K s = false ->
  results (processImage v cvLoaded K s) = results s.
Proof.
  unfold succeeds. intros Hs.
  destruct (guardFails cvLoaded s) eqn:Hg.
  - rewrite (processImage_guarded _ _ _ _ Hg). reflexivity.
  - rewrite (processImage_passed _ _ _ _ Hg). unfold processImage_resume.
    pose proof (tryBody_outcome v K (entered v s)) as H.
    destruct (tryBody v K (entered v s)) as [[msg | u] s1]; [|discriminate].
    destruct H as [_ Hr]. unfold results in *. simpl.
    rewrite Hr. destruct v; reflexivity.
Qed.

Lemma processImage_success v cvLoaded K s :
  succeeds v cvLoaded K s = true ->
  resultIs v (yieldedCount v K) (processImage v cvLoaded K s) /\
  isProcessing (processImage v cvLoaded K s) = false /\
  error (processImage v cvLoaded K s) =
    match v with ContourVariant => error s | PixelVariant => None end.
Proof.
  unfold succeeds. intros Hs. apply andb_true_iff in Hs. destruct Hs as [Hg Ht].
  apply negb_true_iff in Hg.
  rewrite (processImage_passed _ _ _ _ Hg). unfold processImage_resume.
  pose proof (tryBody_outcome v K (entered v s)) as H.
  destruct (tryBody v K (entered v s)) as [[msg | u] s1]; [discriminate|].
  destruct H as [Hw Hr]. apply workflow_fields in Hw.
  destruct Hw as (_ & _ & _ & _ & He & _ & _).
  split; [|split].
  - apply newResults_resultIs in Hr. destruct v; simpl in *; exact Hr.
  - reflexivity.
  - simpl. rewrite He. destruct v; reflexivity.
Qed.

Lemma neverThrows_succeeds v K s :
  truthy (capturedImage s) = true -> neverThrows K -> succeeds v true K s = true.
Proof.
  intros Hf Hq. unfold succeeds, guardFails. rewrite Hf. simpl.
  destruct (tryBody_returns v K (entered v s) Hq) as [s1 ->]. reflexivity.
Qed.


(** * Properties of the workflow *)

(** ** Processing *)

(** C2: in a state with a captured frame and a loaded library, when the
    collaborator yields count [k] and no call throws, [processImage] sets
    the processing result to exactly [k], clears the processing flag and
    leaves frame, streaming flag and bound stream as they were; a state
    that was not streaming is left in Captured. *)
Theorem processImage_sets_count v K s k :
  truthy (capturedImage s) = true ->
  neverThrows K ->
  yieldedCount v K = k ->
  resultIs v k (processImage v true K s) /\
  isProcessing (processImage v true K s) = false /\
  capturedImage (processImage v true K s) = capturedImage s /\
  isStreaming (processImage v true K s) = isStreaming s /\
  boundStream (processImage v true K s) = boundStream s /\
  (isStreaming s = false -> Captured (processImage v true K s)).
Proof.
  intros Hf Hq <-.
  pose proof (neverThrows_succeeds v K s Hf Hq) as Hs.
  destruct (processImage_success v true K s Hs) as (Hres & Hproc & _).
  destruct (processImage_camera v true K s) as (_ & Hv & Hstr & Hcap & _).
  repeat split; try assumption.
  - unfold boundStream. now rewrite Hv.
  - now rewrite Hcap.
  - now rewrite Hstr.
Qed.

Lemma processImage_sets_count_witness :
  truthy (capturedImage (capturedState ContourVariant)) = true /\
  yieldedCount ContourVariant (quiet [150 # 1; 3 # 1; 201 # 2; 100 # 1] 0) = 2 /\
  resultIs ContourVariant 2
    (processImage ContourVariant true (quiet [150 # 1; 3 # 1; 201 # 2; 100 # 1] 0)
       (capturedState ContourVariant)).
Proof.
  split; [reflexivity|]. split; [reflexivity|].
  apply (processImage_sets_count ContourVariant
           (quiet [150 # 1; 3 # 1; 201 # 2; 100 # 1] 0)
           (capturedState ContourVariant) 2);
    [reflexivity | intros op; reflexivity | reflexivity].
Defined.

(** C4: when the vision library is not loaded or no frame is captured,
    [processImage] only sets a non-empty error message: result, frame,
    streaming flag and the library side (no call is logged) are unchanged. *)
Theorem processImage_fails_fast v cvLoaded K s :
  cvLoaded = false \/ capturedImage s = None ->
  processImage v cvLoaded K s = setError (Some unavailableMessage) s /\
  error (processImage v cvLoaded K s) = Some unavailableMessage /\
  unavailableMessage <> EmptyString /\
  objectCount (processImage v cvLoaded K s) = objectCount s /\
  processedResult (processImage v cvLoaded K s) = processedResult s /\
  capturedImage (processImage v cvLoaded K s) = capturedImage s /\
  isStreaming (processImage v cvLoaded K s) = isStreaming s /\
  isProcessing (processImage v cvLoaded K s) = isProcessing s /\
  heap (processImage v cvLoaded K s) = heap s.
Proof.
  intros H.
  assert (Hg : guardFails cvLoaded s = true).
  { unfold guardFails. destruct H as [-> | ->]; [reflexivity|].
    simpl. apply orb_true_r. }
  rewrite (processImage_guarded v cvLoaded K s Hg).
  repeat split. discriminate.
Qed.

Lemma processImage_fails_fast_witness :
  capturedImage initial = None /\
  processImage PixelVariant true (quiet [] 7) initial
  = setError (Some unavailableMessage) initial.
Proof.
  split; [reflexivity|].
  apply (processImage_fails_fast PixelVariant true (quiet [] 7) initial).
  right. reflexivity.
Defined.

(** C7: while a pass is in flight ([isProcessing] true) the process button
    is disabled, so activating it again runs nothing: the state, and with
    it the log of collaborator calls, is unchanged. *)
Theorem reentrant_process_ignored v cvLoaded K s :
  isProcessing s = true ->
  clickable s ProcessButton = false /\
  click v (OpProcessImage cvLoaded K) s = s /\
  cvCalls (heap (click v (OpProcessImage cvLoaded K) s)) = cvCalls (heap s).
Proof.
  intros Hp.
  assert (Hc : clickable s ProcessButton = false).
  { unfold clickable. simpl. rewrite Hp. apply andb_false_r. }
  unfold click. simpl. rewrite Hc. repeat split.
Qed.

Lemma reentrant_process_ignored_witness :
  isProcessing processingState = true /\
  click PixelVariant (OpProcessImage true (quiet [] 7)) processingState
  = processingState.
Proof.
  split; [reflexivity|].
  apply (reentrant_process_ignored PixelVariant true (quiet [] 7) processingState).
  reflexivity.
Defined.

(** The handler itself has no guard on [isProcessing]: called directly
    during a pass, it enters the [try] block again. *)
Lemma processImage_has_no_reentrancy_guard :
  isProcessing processingState = true /\
  snd (processImage_begin PixelVariant true processingState) = true.
Proof. split; reflexivity. Qed.

(** ** Camera *)

(** C10: when the platform grants a stream but the video reference is
    null, [startCamera] changes nothing: all state variables stay as they
    were, no stream is bound and no stream is stopped. *)
Theorem startCamera_without_video stream s :
  videoRef s = None ->
  startCamera (Granted stream) s = s /\
  isStreaming (startCamera (Granted stream) s) = isStreaming s /\
  boundStream (startCamera (Granted stream) s) = None /\
  stoppedStreams (startCamera (Granted stream) s) = stoppedStreams s.
Proof.
  intros Hv. unfold startCamera. rewrite Hv. repeat split.
  unfold boundStream. now rewrite Hv.
Qed.

Lemma startCamera_without_video_witness :
  videoRef (capturedState PixelVariant) = None /\
  startCamera (Granted 2%nat) (capturedState PixelVariant) = capturedState PixelVariant.
Proof.
  split; [reflexivity|].
  apply (startCamera_without_video 2%nat (capturedState PixelVariant)).
  reflexivity.
Defined.

(** C8: on a mounted component with a frame, retake clears the frame and
    the processing result whatever the camera answers, and when the camera
    is granted the workflow is streaming again with the new stream bound. *)
Theorem retake_clears_and_restreams v stream s :
  mounted s = true ->
  framePresent s = true ->
  (forall r, capturedImage (retake v r s) = None /\ resultAbsent v (retake v r s)) /\
  isStreaming (retake v (Granted stream) s) = true /\
  boundStream (retake v (Granted stream) s) = Some stream.
Proof.
  intros Hm _. destruct s as [c vr st ci oc pr er ip ss hp].
  unfold mounted in Hm. simpl in Hm. subst c. split.
  - intros r. destruct v, vr as [el|], r; split; reflexivity.
  - destruct v, vr as [el|]; split; reflexivity.
Qed.

Lemma retake_clears_and_restreams_witness :
  mounted (capturedState PixelVariant) = true /\
  framePresent (capturedState PixelVariant) = true /\
  isStreaming (retake PixelVariant (Granted 5%nat) (capturedState PixelVariant)) = true.
Proof.
  split; [reflexivity|]. split; [reflexivity|].
  apply (retake_clears_and_restreams PixelVariant 5%nat (capturedState PixelVariant));
    reflexivity.
Defined.

(** C3, as stated, fails: on the freshly mounted component, which is not
    streaming, [captureImage] stores a frame. *)
Lemma capture_while_idle_stores_frame :
  isStreaming initial = false /\
  capturedImage (captureImage true "," initial) = Some "data:," /\
  capturedImage (captureImage true "," initial) <> capturedImage initial.
Proof. repeat split. discriminate. Qed.

(** C3, amended: while the workflow is not streaming the capture button is
    not rendered, and [captureImage] leaves streaming flag, error and
    result unchanged; it leaves the frame unchanged too when the video
    element, the canvas or its 2D context is missing, and otherwise stores
    the new snapshot. *)
Theorem captureImage_when_not_streaming context payload s :
  isStreaming s = false ->
  rendered s CaptureButton = false /\
  isStreaming (captureImage context payload s) = false /\
  error (captureImage context payload s) = error s /\
  objectCount (captureImage context payload s) = objectCount s /\
  processedResult (captureImage context payload s) = processedResult s /\
  (videoRef s = None \/ canvasRef s = false \/ context = false ->
   captureImage context payload s = s) /\
  (videoRef s <> None -> canvasRef s = true -> context = true ->
   capturedImage (captureImage context payload s) = Some (toDataURL payload)).
Proof.
  intros Hs. destruct s as [c vr st ci oc pr er ip ss hp]. simpl in Hs. subst st.
  split; [reflexivity|].
  destruct vr as [[[stream|]]|], c, context; simpl;
    repeat split; try reflexivity; try congruence;
    intros [H | [H | H]]; congruence.
Qed.

Lemma captureImage_when_not_streaming_witness :
  isStreaming (capturedState PixelVariant) = false /\
  captureImage true "," (capturedState PixelVariant) = capturedState PixelVariant.
Proof.
  split; [reflexivity|].
  apply (captureImage_when_not_streaming true "," (capturedState PixelVariant));
    [reflexivity | left; reflexivity].
Defined.

(** C6: the pixel variant on a captured frame, with a library whose
    [cvtColor] throws.  The two matrices allocated before the throw are
    still live when the handler completes, and no [delete] was called. *)
Theorem processImage_leaks_on_throw :
  cvLive (heap (capturedState PixelVariant)) = [] /\
  cvLive (heap (processImage PixelVariant true (cvtColorFails "boom")
                  (capturedState PixelVariant))) = [1%nat; 0%nat] /\
  cvCalls (heap (processImage PixelVariant true (cvtColorFails "boom")
                   (capturedState PixelVariant)))
  = [CvCvtColor; CvNewMat MatGray; CvImread] /\
  error (processImage PixelVariant true (cvtColorFails "boom")
           (capturedState PixelVariant)) = Some "Error processing image: boom" /\
  isProcessing (processImage PixelVariant true (cvtColorFails "boom")
                  (capturedState PixelVariant)) = false.
Proof. repeat split. Qed.

(** C5, as stated, fails.  A successful [captureImage] keeps the error
    (either variant), and in the contour variant a successful
    [processImage] keeps it as well. *)
Lemma error_survives_successful_steps :
  (error erroredStreaming = Some unavailableMessage /\
   capturedImage (step PixelVariant (OpCaptureImage true ",") erroredStreaming)
   = Some "data:," /\
   error (step PixelVariant (OpCaptureImage true ",") erroredStreaming)
   = Some unavailableMessage) /\
  (error erroredCaptured = Some unavailableMessage /\
   succeeds ContourVariant true (quiet [120 # 1] 0) erroredCaptured = true /\
   error (step ContourVariant (OpProcessImage true (quiet [120 # 1] 0)) erroredCaptured)
   = Some unavailableMessage).
Proof. repeat split. Qed.

Lemma commit_error v s : error (commit v s) = error s.
Proof.
  unfold commit, attachVideo.
  destruct (mounted s), v, (truthy (capturedImage s)), (videoRef s); reflexivity.
Qed.

Lemma stopCamera_error s : error (stopCamera s) = error s.
Proof. unfold stopCamera. destruct (videoRef s) as [[[stream|]]|]; reflexivity. Qed.

Lemma captureImage_error context payload s :
  error (captureImage context payload s) = error s.
Proof.
  unfold captureImage.
  destruct (videoRef s), (canvasRef s), context; try reflexivity.
  now rewrite stopCamera_error.
Qed.

Lemma processImage_failure_or_error v cvLoaded K s :
  succeeds v cvLoaded K s = true ->
  error (processImage v cvLoaded K s) = error s \/
  error (processImage v cvLoaded K s) = None.
Proof.
  intros Hs. destruct (processImage_success v cvLoaded K s Hs) as (_ & _ & He).
  rewrite He. destruct v; [left | right]; reflexivity.
Qed.

(** C5, amended: the error is cleared by a granted [startCamera] that finds
    the video element, by a granted retake on a mounted component, and in
    the pixel variant by every [processImage] that completes successfully;
    [captureImage] leaves it as it is; and an operation changes the error
    to a message only when it fails. *)
Theorem error_cleared_and_set v s :
  mounted s = true ->
  (forall stream, videoRef s <> None -> error (startCamera (Granted stream) s) = None) /\
  (forall stream, error (retake v (Granted stream) s) = None) /\
  (forall cvLoaded K, succeeds PixelVariant cvLoaded K s = true ->
                      error (processImage PixelVariant cvLoaded K s) = None) /\
  (forall context payload, error (captureImage context payload s) = error s) /\
  (forall op, error (step v op s) <> None -> error (step v op s) <> error s ->
              failed v op s = true).
Proof.
  intros Hm. split; [|split; [|split; [|split]]].
  - intros stream Hv. unfold startCamera. destruct (videoRef s); [reflexivity | congruence].
  - intros stream. destruct s as [c vr st ci oc pr er ip ss hp].
    unfold mounted in Hm. simpl in Hm. subst c.
    destruct v, vr; reflexivity.
  - intros cvLoaded K Hs.
    now destruct (processImage_success PixelVariant cvLoaded K s Hs) as (_ & _ & He).
  - intros. apply captureImage_error.
  - intros op Hsome Hchg. unfold step in *. rewrite Hm in *.
    rewrite commit_error in *.
    destruct op as [r | context payload | cvLoaded K | r | detached]; simpl in *.
    + destruct r as [stream | reason]; [|reflexivity].
      exfalso. unfold startCamera in *. destruct (videoRef s); simpl in *; congruence.
    + exfalso. now rewrite captureImage_error in Hchg.
    + destruct (succeeds v cvLoaded K s) eqn:Hs; [|reflexivity].
      exfalso. destruct (processImage_failure_or_error v cvLoaded K s Hs); congruence.
    + destruct r as [stream | reason]; [|reflexivity].
      exfalso. destruct s as [c vr st ci oc pr er ip ss hp].
      unfold mounted in Hm. simpl in Hm. subst c.
      destruct v, vr; simpl in *; congruence.
    + exfalso. unfold teardown in Hchg.
      destruct detached; [rewrite stopCamera_error in Hchg
                         | unfold detach in Hchg; simpl in Hchg;
                           rewrite stopCamera_error in Hchg];
        simpl in Hchg; congruence.
Qed.

Lemma error_cleared_and_set_witness :
  mounted erroredCaptured = true /\
  error erroredCaptured = Some unavailableMessage /\
  error (retake ContourVariant (Granted 3%nat) erroredCaptured) = None.
Proof.
  split; [reflexivity|]. split; [reflexivity|].
  apply (error_cleared_and_set ContourVariant erroredCaptured); reflexivity.
Defined.

(** ** Stream and frame *)

(** Case analysis on the camera fields of a state leaves goals made of
    boolean equations; this closes them. *)
Ltac settle :=
  simpl in *;
  repeat match goal with
         | H : ?a = ?a -> _ |- _ => specialize (H eq_refl)
         | H : ?P -> _, H1 : ?P |- _ => specialize (H H1)
         | H : _ /\ _ |- _ => destruct H
         | H : _ \/ _ |- _ => destruct H
         | |- _ /\ _ => split
         | |- _ -> _ => intro
         end;
  try congruence; try discriminate.

Lemma consistent_exclusive v s : consistent v s -> exclusive s.
Proof.
  intros [[H1 _] _]. unfold exclusive, streamActive.
  destruct (framePresent s); [|apply andb_false_r].
  destruct (H1 eq_refl) as [_ ->]. reflexivity.
Qed.

Lemma commit_consistent v s : coherent s -> consistent v (commit v s).
Proof.
  destruct s as [c vr st ci oc pr er ip ss hp].
  cbv [consistent coherent commit mounted framePresent boundStream attachVideo
       canvasRef videoRef isStreaming capturedImage srcObject set_videoRef truthy].
  destruct c, v, ci as [[|a f]|], vr as [[[stream|]]|], st; settle.
Qed.

Lemma startCamera_coherent r s :
  coherent s -> mounted s = true -> overlaps (EvStartSettles r) s = false ->
  coherent (startCamera r s).
Proof.
  destruct s as [c vr st ci oc pr er ip ss hp].
  cbv [coherent overlaps mounted framePresent boundStream startCamera
       canvasRef videoRef isStreaming capturedImage srcObject truthy].
  destruct c, r as [stream | reason], ci as [[|a f]|], vr as [[[bound|]]|], st; settle.
Qed.

Lemma captureImage_coherent context payload s :
  coherent s -> mounted s = true -> coherent (captureImage context payload s).
Proof.
  destruct s as [c vr st ci oc pr er ip ss hp].
  cbv [coherent mounted framePresent boundStream captureImage
       canvasRef videoRef isStreaming capturedImage srcObject truthy].
  destruct c, context, ci as [[|a f]|], vr as [[[bound|]]|], st; settle.
Qed.

Lemma retakeBegin_coherent v s : coherent s -> coherent (retakeBegin v s).
Proof.
  destruct s as [c vr st ci oc pr er ip ss hp].
  cbv [coherent mounted framePresent boundStream
       canvasRef videoRef isStreaming capturedImage srcObject truthy].
  destruct v, c, vr as [[[bound|]]|], st; settle.
Qed.

Lemma coherent_camera s s1 :
  canvasRef s1 = canvasRef s -> videoRef s1 = videoRef s ->
  isStreaming s1 = isStreaming s -> capturedImage s1 = capturedImage s ->
  coherent s -> coherent s1.
Proof.
  unfold coherent, mounted, framePresent, boundStream.
  intros -> -> -> ->. exact (fun H => H).
Qed.

Lemma teardown_coherent detached s : coherent s -> coherent (teardown detached s).
Proof.
  destruct s as [c vr st ci oc pr er ip ss hp].
  cbv [coherent mounted framePresent boundStream
       canvasRef videoRef isStreaming capturedImage srcObject truthy].
  destruct c, detached, vr as [[[bound|]]|], st, ci as [[|a f]|]; settle.
Qed.

Lemma processImage_begin_camera v cvLoaded s :
  canvasRef (fst (processImage_begin v cvLoaded s)) = canvasRef s /\
  videoRef (fst (processImage_begin v cvLoaded s)) = videoRef s /\
  isStreaming (fst (processImage_begin v cvLoaded s)) = isStreaming s /\
  capturedImage (fst (processImage_begin v cvLoaded s)) = capturedImage s /\
  stoppedStreams (fst (processImage_begin v cvLoaded s)) = stoppedStreams s.
Proof.
  unfold processImage_begin.
  destruct (negb cvLoaded || negb (truthy (capturedImage s))), v; repeat split.
Qed.

Lemma processImage_resume_camera v K s :
  canvasRef (processImage_resume v K s) = canvasRef s /\
  videoRef (processImage_resume v K s) = videoRef s /\
  isStreaming (processImage_resume v K s) = isStreaming s /\
  capturedImage (processImage_resume v K s) = capturedImage s /\
  stoppedStreams (processImage_resume v K s) = stoppedStreams s.
Proof.
  unfold processImage_resume. pose proof (tryBody_outcome v K s) as H.
  destruct (tryBody v K s) as [[msg | u] s1];
    destruct H as [Hw _]; apply workflow_fields in Hw;
    destruct Hw as (H1 & H2 & H3 & H4 & _ & _ & H7); repeat split; assumption.
Qed.

Lemma part_coherent v e s :
  coherent s -> mounted s = true -> overlaps e s = false -> coherent (part v e s).
Proof.
  intros Hc Hm Ho.
  destruct e as [r | context payload | cvLoaded | K | | detached]; cbn [part].
  - now apply startCamera_coherent.
  - now apply captureImage_coherent.
  - destruct (processImage_begin_camera v cvLoaded s) as (H1 & H2 & H3 & H4 & _).
    now apply (coherent_camera s).
  - destruct (processImage_resume_camera v K s) as (H1 & H2 & H3 & H4 & _).
    now apply (coherent_camera s).
  - now apply retakeBegin_coherent.
  - now apply teardown_coherent.
Qed.

(** An event that is not a granted request settling over a frame keeps
    the component consistent. *)
Lemma fire_consistent v e s :
  consistent v s -> overlaps e s = false -> consistent v (fire v e s).
Proof.
  intros Hc Ho. unfold fire. destruct (mounted s) eqn:Hm.
  - apply commit_consistent. apply part_coherent; [apply Hc | assumption..].
  - destruct e; assumption.
Qed.

(** In the pixel variant no request settles over a frame: the video
    element is unmounted while a frame is present. *)
Lemma pixel_never_overlaps e s : consistent PixelVariant s -> overlaps e s = false.
Proof.
  intros [_ H3]. destruct e as [[stream | reason] | | | | |]; try reflexivity.
  unfold overlaps.
  destruct (mounted s) eqn:Hm; [|reflexivity].
  destruct (framePresent s) eqn:Hf; [|reflexivity].
  now rewrite (H3 eq_refl eq_refl eq_refl).
Qed.

Lemma initial_consistent v : consistent v initial.
Proof.
  unfold consistent, coherent. simpl. repeat split; intros; discriminate.
Qed.

Lemma play_consistent v events :
  forall s, consistent v s -> undisturbed v events s -> consistent v (play v events s).
Proof.
  induction events as [|e events IH]; intros s Hc Hu; simpl; [assumption|].
  assert (Ho : overlaps e s = false).
  { destruct Hu as [-> | Hn]; [now apply pixel_never_overlaps|].
    simpl in Hn. apply andb_true_iff in Hn. destruct Hn as [Hn _].
    now apply negb_true_iff in Hn. }
  apply IH; [now apply fire_consistent|].
  destruct Hu as [Hp | Hn]; [now left | right].
  simpl in Hn. apply andb_true_iff in Hn. apply Hn.
Qed.

(** In the contour variant a granted request that settles over a frame
    leaves stream and frame together. *)
Lemma overlap_breaks e s :
  overlaps e s = true ->
  streamActive (fire ContourVariant e s) = true /\
  framePresent (fire ContourVariant e s) = true.
Proof.
  destruct s as [c vr st ci oc pr er ip ss hp].
  destruct e as [[stream | reason] | | | | |]; try discriminate.
  unfold overlaps, fire, mounted, framePresent. simpl.
  destruct c, ci, vr; try discriminate. intros _. split; reflexivity.
Qed.

(** In a consistent streaming state a capture stores the frame and, in the
    same step, stops and unbinds the stream and clears the flag. *)
Lemma capture_releases v payload s :
  consistent v s -> mounted s = true -> isStreaming s = true ->
  capturedImage (step v (OpCaptureImage true payload) s) = Some (toDataURL payload) /\
  isStreaming (step v (OpCaptureImage true payload) s) = false /\
  boundStream (step v (OpCaptureImage true payload) s) = None /\
  exists stream, boundStream s = Some stream /\
                 In stream (stoppedStreams (step v (OpCaptureImage true payload) s)).
Proof.
  destruct s as [c vr st ci oc pr er ip ss hp].
  unfold consistent, coherent, step, mounted, framePresent, boundStream. simpl.
  intros [[H1 H2] H3] Hm Hs. subst c st.
  specialize (H2 eq_refl eq_refl).
  destruct vr as [[[bound|]]|]; simpl in H2; try congruence.
  unfold commit, mounted, attachVideo.
  destruct v; simpl; repeat split; exists bound; split; try reflexivity; now left.
Qed.

(** C1, as stated, fails in the contour variant: after start and capture,
    a second camera request that is granted binds a stream and sets the
    flag while the frame is still there.  (The same three completions
    occur when the start button is activated twice before the first
    request settles and the second request settles after the capture.) *)
Lemma second_start_overlaps_frame :
  streamActive (run ContourVariant secondStart initial) = true /\
  framePresent (run ContourVariant secondStart initial) = true.
Proof. split; reflexivity. Qed.

(** C1, amended: after every sequence of events in which no granted
    camera request settles while a frame is present and the video element
    is mounted (in the pixel variant: after every sequence of events), at
    most one of active stream and captured frame holds; a capture made
    while streaming stores the frame and releases the stream in the same
    step; and in the contour variant a granted request that does settle
    over a frame leaves stream and frame together. *)
Theorem stream_frame_exclusive v events :
  undisturbed v events initial ->
  exclusive (play v events initial) /\
  (forall payload,
      mounted (play v events initial) = true ->
      isStreaming (play v events initial) = true ->
      capturedImage (fire v (EvCapture true payload) (play v events initial))
      = Some (toDataURL payload) /\
      isStreaming (fire v (EvCapture true payload) (play v events initial)) = false /\
      boundStream (fire v (EvCapture true payload) (play v events initial)) = None /\
      exists stream,
        boundStream (play v events initial) = Some stream /\
        In stream (stoppedStreams
                     (fire v (EvCapture true payload) (play v events initial)))) /\
  (forall e,
      v = ContourVariant ->
      overlaps e (play v events initial) = true ->
      streamActive (fire v e (play v events initial)) = true /\
      framePresent (fire v e (play v events initial)) = true).
Proof.
  intros Hu.
  pose proof (play_consistent v events initial (initial_consistent v) Hu) as Hc.
  split; [|split].
  - now apply (consistent_exclusive v).
  - intros payload Hm Hs.
    exact (capture_releases v payload (play v events initial) Hc Hm Hs).
  - intros e -> Ho. now apply overlap_breaks.
Qed.

Lemma stream_frame_exclusive_witness :
  undisturbed ContourVariant (retakeDuringPass (quiet [120 # 1] 0)) initial /\
  exclusive (play ContourVariant (retakeDuringPass (quiet [120 # 1] 0)) initial).
Proof.
  exact (conj (or_intror eq_refl)
              (proj1 (stream_frame_exclusive ContourVariant
                        (retakeDuringPass (quiet [120 # 1] 0))
                        (or_intror eq_refl)))).
Defined.

(** ** The processing result over a run *)

Lemma commit_results v s : results (commit v s) = results s.
Proof.
  unfold commit, attachVideo.
  destruct (mounted s), v, (truthy (capturedImage s)), (videoRef s); reflexivity.
Qed.

Lemma stopCamera_results s : results (stopCamera s) = results s.
Proof. unfold stopCamera. destruct (videoRef s) as [[[stream|]]|]; reflexivity. Qed.

Lemma startCamera_results r s : results (startCamera r s) = results s.
Proof. unfold startCamera. destruct r, (videoRef s); reflexivity. Qed.

Lemma captureImage_results context payload s :
  results (captureImage context payload s) = results s.
Proof.
  unfold captureImage.
  destruct (videoRef s), (canvasRef s), context; try reflexivity.
  now rewrite stopCamera_results.
Qed.

Lemma teardown_results detached s : results (teardown detached s) = results s.
Proof.
  unfold teardown, detach.
  destruct detached; [now rewrite stopCamera_results|].
  simpl. unfold results. simpl. apply stopCamera_results.
Qed.

Lemma resultAbsent_results v s s1 :
  results s1 = results s -> resultAbsent v s -> resultAbsent v s1.
Proof.
  intros H. destruct (results_fields s1 _ _ H) as [Hn Hr].
  destruct v; simpl; congruence.
Qed.

Lemma retake_resultAbsent v r s : resultAbsent v (retake v r s).
Proof.
  destruct v; simpl; unfold resetCapture, retakeImage.
  - apply (resultAbsent_results ContourVariant (setObjectCount 0 (setCapturedImage None s)));
      [|reflexivity].
    now rewrite startCamera_results, commit_results.
  - apply (resultAbsent_results PixelVariant
             (setProcessedResult None (setCapturedImage None s))); [|reflexivity].
    now rewrite startCamera_results, commit_results.
Qed.

Lemma processImage_begin_results v cvLoaded s :
  results (fst (processImage_begin v cvLoaded s)) = results s.
Proof.
  unfold processImage_begin.
  destruct (negb cvLoaded || negb (truthy (capturedImage s))), v; reflexivity.
Qed.

Lemma processImage_resume_results v K s :
  returns v K s = false -> results (processImage_resume v K s) = results s.
Proof.
  unfold returns, processImage_resume. intros Hr.
  pose proof (tryBody_outcome v K s) as H.
  destruct (tryBody v K s) as [[msg | u] s1]; [|discriminate].
  destruct H as [_ H]. exact H.
Qed.

Lemma retakeBegin_resultAbsent v s : resultAbsent v (retakeBegin v s).
Proof. destruct v; reflexivity. Qed.

Lemma fire_mark v e s was :
  resultAbsent v s \/ was = true ->
  resultAbsent v (fire v e s) \/ mark v e s was = true.
Proof.
  intros H. unfold fire, mark. destruct (mounted s).
  - destruct e as [r | context payload | cvLoaded | K | | detached]; cbn [part].
    + destruct H as [H | H]; [left | now right].
      apply (resultAbsent_results v s); [|assumption].
      now rewrite commit_results, startCamera_results.
    + destruct H as [H | H]; [left | now right].
      apply (resultAbsent_results v s); [|assumption].
      now rewrite commit_results, captureImage_results.
    + destruct H as [H | H]; [left | now right].
      apply (resultAbsent_results v s); [|assumption].
      now rewrite commit_results, processImage_begin_results.
    + destruct (returns v K s) eqn:Hr; [now right|].
      destruct H as [H | H]; [left | now right].
      apply (resultAbsent_results v s); [|assumption].
      now rewrite commit_results, (processImage_resume_results _ _ _ Hr).
    + left. apply (resultAbsent_results v (retakeBegin v s)).
      * apply commit_results.
      * apply retakeBegin_resultAbsent.
    + destruct H as [H | H]; [left | now right].
      apply (resultAbsent_results v s); [|assumption].
      now rewrite commit_results, teardown_results.
  - destruct e; assumption.
Qed.

Lemma play_mark v events :
  forall s was,
    resultAbsent v s \/ was = true ->
    resultAbsent v (play v events s) \/ setSinceRetake v events s was = true.
Proof.
  induction events as [|e events IH]; intros s was H; simpl; [assumption|].
  apply IH. now apply fire_mark.
Qed.

(** C9: the processing result is absent on the freshly mounted component
    and absent again after every retake (after its two state updates
    already, whatever the camera then answers); and in every state the
    component reaches, by handlers run to completion or by parts of
    handlers interleaved, it is absent unless a processing pass whose
    [try] block returned normally has set it since the last retake. *)
Theorem result_absent_unless_processed v events r s :
  resultAbsent v initial /\
  resultAbsent v (retakeBegin v s) /\
  resultAbsent v (retake v r s) /\
  (resultAbsent v (play v events initial)
   \/ setSinceRetake v events initial false = true).
Proof.
  split; [destruct v; reflexivity|]. split; [apply retakeBegin_resultAbsent|].
  split; [apply retake_resultAbsent|].
  apply play_mark. left. destruct v; reflexivity.
Qed.

(** The mark is set by a pass that returns normally, also when a retake
    has run since the pass began; it is cleared by the retake that
    follows the pass, and a pass that throws does not set it. *)
Lemma setSinceRetake_example :
  setSinceRetake PixelVariant (retakeDuringPass (quiet [] 42)) initial false = true /\
  processedResult (play PixelVariant (retakeDuringPass (quiet [] 42)) initial)
  = Some 42 /\
  capturedImage (play PixelVariant (retakeDuringPass (quiet [] 42)) initial) = None /\
  setSinceRetake PixelVariant
    (retakeDuringPass (quiet [] 42) ++ [EvRetakeBegin]) initial false = false /\
  setSinceRetake PixelVariant
    [EvStartSettles (Granted 1%nat); EvCapture true ","; EvProcessBegin true;
     EvProcessResume (cvtColorFails "boom")] initial false = false.
Proof. repeat split. Qed.

(** ** Handlers run to completion are sequences of events *)

Lemma commit_idempotent v s : commit v (commit v s) = commit v s.
Proof.
  destruct s as [c vr st ci oc pr er ip ss hp].
  unfold commit, mounted, attachVideo. simpl.
  destruct c, v, (truthy ci) eqn:Hc, vr; simpl; rewrite ?Hc; reflexivity.
Qed.

Lemma commit_mounted v s : mounted (commit v s) = mounted s.
Proof.
  destruct s as [c vr st ci oc pr er ip ss hp].
  unfold commit, mounted, attachVideo. simpl.
  destruct c, v, (truthy ci), vr; reflexivity.
Qed.

Lemma commit_entered v s : commit v s = s -> commit v (entered v s) = entered v s.
Proof.
  destruct s as [c vr st ci oc pr er ip ss hp].
  unfold commit, mounted, attachVideo, entered.
  destruct c, v; unfold set_videoRef, setIsProcessing, setError; simpl;
    destruct (truthy ci), vr; simpl; congruence.
Qed.

Lemma step_committed v op s : commit v s = s -> commit v (step v op s) = step v op s.
Proof.
  intros Hs. unfold step. destruct (mounted s); [apply commit_idempotent | exact Hs].
Qed.

Lemma fire_begin_guarded v cvLoaded s :
  mounted s = true -> guardFails cvLoaded s = true ->
  fire v (EvProcessBegin cvLoaded) s = commit v (setError (Some unavailableMessage) s).
Proof.
  intros Hm Hg. unfold fire. rewrite Hm. cbn [part].
  unfold processImage_begin. unfold guardFails in Hg. now rewrite Hg.
Qed.

Lemma fire_begin_passed v cvLoaded s :
  mounted s = true -> commit v s = s -> guardFails cvLoaded s = false ->
  fire v (EvProcessBegin cvLoaded) s = entered v s.
Proof.
  intros Hm Hs Hg. unfold fire. rewrite Hm. cbn [part].
  unfold processImage_begin. unfold guardFails in Hg. rewrite Hg.
  destruct v; cbn [fst]; [apply (commit_entered ContourVariant s Hs)
                         | apply (commit_entered PixelVariant s Hs)].
Qed.

(** On a rendered state, the parts of an operation, played one after the
    other, do what the operation does. *)
Lemma play_steps v op s : commit v s = s -> play v (steps v op s) s = step v op s.
Proof.
  intros Hs. unfold steps, step. destruct (mounted s) eqn:Hm; [|reflexivity].
  destruct op as [r | context payload | cvLoaded K | r | detached].
  - simpl. unfold fire. now rewrite Hm.
  - simpl. unfold fire. now rewrite Hm.
  - cbn [handler]. destruct (guardFails cvLoaded s) eqn:Hg.
    + cbn [play fold_left]. rewrite (fire_begin_guarded v cvLoaded s Hm Hg).
      now rewrite (processImage_guarded v cvLoaded K s Hg).
    + cbn [play fold_left]. rewrite (fire_begin_passed v cvLoaded s Hm Hs Hg).
      rewrite (processImage_passed v cvLoaded K s Hg).
      unfold fire.
      assert (Hme : mounted (entered v s) = true) by (destruct v; exact Hm).
      now rewrite Hme.
  - cbn [play fold_left handler].
    assert (Hb : mounted (fire v EvRetakeBegin s) = true).
    { unfold fire. rewrite Hm. rewrite commit_mounted. destruct v; exact Hm. }
    unfold fire at 1. rewrite Hb. unfold fire. rewrite Hm. cbn [part].
    destruct v; reflexivity.
  - simpl. unfold fire. now rewrite Hm.
Qed.

Lemma play_app v events later s :
  play v (events ++ later) s = play v later (play v events s).
Proof. unfold play. apply fold_left_app. Qed.

(** Every state reached by handlers run to completion is reached by the
    sequence of their parts. *)
Lemma play_stepsOf v ops :
  forall s, commit v s = s -> play v (stepsOf v ops s) s = run v ops s.
Proof.
  induction ops as [|op ops IH]; intros s Hs; simpl; [reflexivity|].
  rewrite play_app, (play_steps v op s Hs).
  apply IH. now apply step_committed.
Qed.

(** * Further properties of the handlers *)

(** ** Camera handlers *)

(** X1: [stopCamera] is idempotent.  It leaves no stream bound, records
    the stream that was bound (and no other) as stopped, and clears the
    streaming flag only when a stream was bound. *)
Theorem stopCamera_idempotent s :
  stopCamera (stopCamera s) = stopCamera s /\
  boundStream (stopCamera s) = None /\
  stoppedStreams (stopCamera s)
  = match boundStream s with
    | Some stream => stream :: stoppedStreams s
    | None => stoppedStreams s
    end /\
  isStreaming (stopCamera s)
  = match boundStream s with
    | Some _ => false
    | None => isStreaming s
    end.
Proof.
  destruct s as [c vr st ci oc pr er ip ss hp].
  destruct vr as [[[stream|]]|]; repeat split.
Qed.

(** X2: [startCamera] never stops a stream.  When two granted requests
    complete one after the other, the second stream replaces the first in
    the video element; the first is neither bound nor stopped, and the
    [stopCamera] that follows stops the second stream only. *)
Theorem overlapping_starts_leak a b s :
  videoRef s <> None ->
  a <> b ->
  ~ In a (stoppedStreams s) ->
  boundStream (startCamera (Granted b) (startCamera (Granted a) s)) = Some b /\
  stoppedStreams (startCamera (Granted b) (startCamera (Granted a) s))
  = stoppedStreams s /\
  stoppedStreams (stopCamera (startCamera (Granted b) (startCamera (Granted a) s)))
  = b :: stoppedStreams s /\
  ~ accounted a (stopCamera (startCamera (Granted b) (startCamera (Granted a) s))).
Proof.
  intros Hv Hab Hin. destruct s as [c vr st ci oc pr er ip ss hp].
  simpl in *. destruct vr as [el|]; [|congruence].
  repeat split. unfold accounted, boundStream. simpl.
  intros [H | [H | H]]; [congruence | congruence | contradiction].
Qed.

Lemma overlapping_starts_leak_witness :
  videoRef initial <> None /\
  ~ accounted 1%nat
      (stopCamera (startCamera (Granted 2%nat) (startCamera (Granted 1%nat) initial))).
Proof.
  assert (Hv : videoRef initial <> None) by discriminate.
  split; [exact Hv|].
  apply (overlapping_starts_leak 1%nat 2%nat initial Hv);
    [discriminate | intros []].
Defined.

(** X3: a retake whose camera request is rejected still discards the frame
    and the result.  From a state that is not streaming it ends with the
    camera error, no frame, no result, and only the start button shown. *)
Theorem rejected_retake_discards_frame v reason s :
  mounted s = true ->
  isStreaming s = false ->
  capturedImage (step v (OpRetake (Rejected reason)) s) = None /\
  resultAbsent v (step v (OpRetake (Rejected reason)) s) /\
  isStreaming (step v (OpRetake (Rejected reason)) s) = false /\
  error (step v (OpRetake (Rejected reason)) s) = Some cameraErrorMessage /\
  rendered (step v (OpRetake (Rejected reason)) s) StartButton = true /\
  rendered (step v (OpRetake (Rejected reason)) s) CaptureButton = false /\
  rendered (step v (OpRetake (Rejected reason)) s) ProcessButton = false.
Proof.
  intros Hm Hs. destruct s as [c vr st ci oc pr er ip ss hp].
  unfold mounted in Hm. simpl in Hm, Hs. subst c st.
  destruct v, vr as [el|]; repeat split.
Qed.

Lemma rejected_retake_discards_frame_witness :
  mounted (capturedState ContourVariant) = true /\
  isStreaming (capturedState ContourVariant) = false /\
  capturedImage (step ContourVariant (OpRetake (Rejected "NotAllowedError"))
                   (capturedState ContourVariant)) = None.
Proof.
  split; [reflexivity|]. split; [reflexivity|].
  apply (rejected_retake_discards_frame ContourVariant "NotAllowedError"
           (capturedState ContourVariant)); reflexivity.
Defined.

(** X4: capture followed by a granted retake.  From a mounted state with
    stream [a] bound and no frame, the two operations end in the state
    they started from, except that [a] is stopped, the new stream is
    bound, the flag is set, and error and result are cleared. *)
Theorem capture_then_retake v payload a b s :
  mounted s = true ->
  videoRef s = Some (mkVideo (Some a)) ->
  capturedImage s = None ->
  run v [OpCaptureImage true payload; OpRetake (Granted b)] s
  = setError None
      (setIsStreaming true
         (set_videoRef (Some (mkVideo (Some b)))
            (set_stoppedStreams (a :: stoppedStreams s) (clearResult v s)))).
Proof.
  intros Hm Hv Hc. destruct s as [c vr st ci oc pr er ip ss hp].
  unfold mounted in Hm. simpl in Hm, Hv, Hc. subst c vr ci.
  destruct v; reflexivity.
Qed.

Lemma capture_then_retake_witness :
  mounted (step PixelVariant (OpStartCamera (Granted 1%nat)) initial) = true /\
  boundStream
    (run PixelVariant [OpCaptureImage true ","; OpRetake (Granted 2%nat)]
       (step PixelVariant (OpStartCamera (Granted 1%nat)) initial)) = Some 2%nat.
Proof.
  split; [reflexivity|].
  rewrite (capture_then_retake PixelVariant "," 1%nat 2%nat
             (step PixelVariant (OpStartCamera (Granted 1%nat)) initial));
    reflexivity.
Defined.

Lemma run_unmounted v ops : forall s, mounted s = false -> run v ops s = s.
Proof.
  induction ops as [|op ops IH]; intros s Hm; simpl; [reflexivity|].
  unfold step. rewrite Hm. now apply IH.
Qed.

(** X5: teardown.  When the cleanup finds the references intact it stops
    the bound stream and unbinds it; when they were already cleared it
    stops nothing.  Either way the component is unmounted and no later
    operation changes its state. *)
Theorem teardown_releases v ops detached s :
  stoppedStreams (teardown false s)
  = match boundStream s with
    | Some stream => stream :: stoppedStreams s
    | None => stoppedStreams s
    end /\
  stoppedStreams (teardown true s) = stoppedStreams s /\
  boundStream (teardown detached s) = None /\
  mounted (teardown detached s) = false /\
  run v ops (teardown detached s) = teardown detached s.
Proof.
  assert (Hm : mounted (teardown detached s) = false).
  { destruct s as [c vr st ci oc pr er ip ss hp].
    destruct detached, vr as [[[stream|]]|]; reflexivity. }
  split; [|split; [|split; [|split]]].
  - destruct s as [c vr st ci oc pr er ip ss hp].
    destruct vr as [[[stream|]]|]; reflexivity.
  - reflexivity.
  - destruct s as [c vr st ci oc pr er ip ss hp].
    destruct detached, vr as [[[stream|]]|]; reflexivity.
  - exact Hm.
  - now apply run_unmounted.
Qed.

(** ** Streams over a run *)

(** Like [settle], for goals that also speak of list membership. *)
Ltac settleIn :=
  settle;
  try (unfold not in *; simpl in *; intuition (try congruence; try discriminate)).

Lemma initial_sound v : sound v initial.
Proof.
  unfold sound. split; [reflexivity|]. split; [apply initial_consistent|].
  split; [reflexivity|]. intros _. discriminate.
Qed.

Lemma camera_sound v s s1 :
  canvasRef s1 = canvasRef s -> videoRef s1 = videoRef s ->
  isStreaming s1 = isStreaming s -> capturedImage s1 = capturedImage s ->
  sound v s -> sound v s1.
Proof.
  unfold sound, consistent, coherent, mounted, framePresent, boundStream.
  intros -> -> -> ->. exact (fun H => H).
Qed.

Lemma commit_sound v s : sound v s -> commit v s = s.
Proof.
  destruct s as [c vr st ci oc pr er ip ss hp].
  unfold sound, consistent, coherent, commit, mounted, framePresent, boundStream,
    attachVideo. simpl.
  intros (Hm & [[H1 H2] H3] & H4 & H5). subst c.
  destruct v, ci as [[|a f]|], vr as [[[stream|]]|]; simpl in *; try reflexivity;
    try (exfalso; apply H5; auto; fail);
    try (specialize (H3 eq_refl eq_refl eq_refl); discriminate);
    try (destruct (H1 eq_refl); discriminate).
Qed.

Lemma step_sound v op s :
  sound v s -> offered s op = true -> isTeardown op = false -> sound v (step v op s).
Proof.
  intros Hs Ho Ht. unfold step.
  assert (Hm : mounted s = true) by apply Hs. rewrite Hm.
  destruct op as [r | context payload | cvLoaded K | r | detached];
    try discriminate.
  - revert Hs Ho. clear. destruct s as [c vr st ci oc pr er ip ss hp].
    cbv [sound consistent coherent mounted framePresent boundStream offered
         controlOf rendered canvasRef videoRef isStreaming capturedImage srcObject
         truthy].
    destruct c, v, r as [stream | reason], ci as [[|a f]|], vr as [[[bound|]]|], st;
      settleIn.
  - revert Hs Ho. clear. destruct s as [c vr st ci oc pr er ip ss hp].
    cbv [sound consistent coherent mounted framePresent boundStream offered
         controlOf rendered canvasRef videoRef isStreaming capturedImage srcObject
         truthy].
    destruct c, v, context, ci as [[|a f]|], vr as [[[bound|]]|], st; settleIn.
  - destruct (processImage_camera v cvLoaded K s) as (H1 & H2 & H3 & H4 & _).
    assert (Hp : sound v (processImage v cvLoaded K s))
      by now apply (camera_sound v s).
    simpl. now rewrite (commit_sound v _ Hp).
  - revert Hs Ho. clear. destruct s as [c vr st ci oc pr er ip ss hp].
    cbv [sound consistent coherent mounted framePresent boundStream offered
         controlOf rendered canvasRef videoRef isStreaming capturedImage srcObject
         truthy].
    destruct c, v, r as [stream | reason], ci as [[|a f]|], vr as [[[bound|]]|], st;
      settleIn.
Qed.

(** On a sound state an offered operation loses no stream: what was bound
    or stopped before is bound or stopped after. *)
Lemma step_accounted v op s stream :
  sound v s -> offered s op = true -> isTeardown op = false ->
  accounted stream s -> accounted stream (step v op s).
Proof.
  intros Hs Ho Ht. unfold step.
  assert (Hm : mounted s = true) by apply Hs. rewrite Hm.
  destruct op as [r | context payload | cvLoaded K | r | detached];
    try discriminate.
  - revert Hs Ho. clear. destruct s as [c vr st ci oc pr er ip ss hp].
    cbv [sound consistent coherent mounted framePresent boundStream offered accounted
         controlOf rendered canvasRef videoRef isStreaming capturedImage srcObject
         stoppedStreams truthy].
    destruct c, v, r as [granted | reason], ci as [[|a f]|], vr as [[[bound|]]|], st;
      settleIn.
  - revert Hs Ho. clear. destruct s as [c vr st ci oc pr er ip ss hp].
    cbv [sound consistent coherent mounted framePresent boundStream offered accounted
         controlOf rendered canvasRef videoRef isStreaming capturedImage srcObject
         stoppedStreams truthy].
    destruct c, v, context, ci as [[|a f]|], vr as [[[bound|]]|], st; settleIn.
  - destruct (processImage_camera v cvLoaded K s) as (H1 & H2 & H3 & H4 & H5).
    assert (Hp : sound v (processImage v cvLoaded K s))
      by now apply (camera_sound v s).
    simpl. rewrite (commit_sound v _ Hp).
    unfold accounted, boundStream. now rewrite H2, H5.
  - revert Hs Ho. clear. destruct s as [c vr st ci oc pr er ip ss hp].
    cbv [sound consistent coherent mounted framePresent boundStream offered accounted
         controlOf rendered canvasRef videoRef isStreaming capturedImage srcObject
         stoppedStreams truthy].
    destruct c, v, r as [granted | reason], ci as [[|a f]|], vr as [[[bound|]]|], st;
      settleIn.
Qed.

(** On a sound state a granted request through a rendered control binds
    its stream. *)
Lemma step_binds_grant v op s stream :
  sound v s -> offered s op = true -> In stream (grantOf op) ->
  accounted stream (step v op s).
Proof.
  intros Hs Ho Hg. unfold step.
  assert (Hm : mounted s = true) by apply Hs. rewrite Hm.
  destruct op as [r | context payload | cvLoaded K | r | detached];
    try (destruct Hg; fail).
  - revert Hs Ho Hg. clear. destruct s as [c vr st ci oc pr er ip ss hp].
    cbv [sound consistent coherent mounted framePresent boundStream offered accounted
         controlOf rendered canvasRef videoRef isStreaming capturedImage srcObject
         stoppedStreams truthy grantOf].
    destruct c, v, r as [granted | reason], ci as [[|a f]|], vr as [[[bound|]]|], st;
      settleIn.
  - revert Hs Ho Hg. clear. destruct s as [c vr st ci oc pr er ip ss hp].
    cbv [sound consistent coherent mounted framePresent boundStream offered accounted
         controlOf rendered canvasRef videoRef isStreaming capturedImage srcObject
         stoppedStreams truthy grantOf].
    destruct c, v, r as [granted | reason], ci as [[|a f]|], vr as [[[bound|]]|], st;
      settleIn.
Qed.

Lemma run_sound v ops :
  forall s,
    sound v s -> offeredRun v ops s = true -> existsb isTeardown ops = false ->
    sound v (run v ops s) /\
    forall stream,
      accounted stream s \/ In stream (grants ops) -> accounted stream (run v ops s).
Proof.
  induction ops as [|op ops IH]; intros s Hs Ho Ht; simpl.
  - split; [assumption|]. intros stream [H | []]. assumption.
  - simpl in Ho, Ht. apply andb_true_iff in Ho. destruct Ho as [Ho1 Ho2].
    apply orb_false_iff in Ht. destruct Ht as [Ht1 Ht2].
    destruct (IH (step v op s) (step_sound v op s Hs Ho1 Ht1) Ho2 Ht2)
      as [Hsound Hacc].
    split; [assumption|]. intros stream H. apply Hacc.
    unfold grants in H. simpl in H. rewrite in_app_iff in H.
    destruct H as [H | [H | H]].
    + left. now apply step_accounted.
    + left. now apply (step_binds_grant v op s).
    + now right.
Qed.

Lemma run_snoc v ops op s : run v (ops ++ [op]) s = step v op (run v ops s).
Proof. unfold run. now rewrite fold_left_app. Qed.

(** X6: no stream is lost in a run of handlers that each go through a
    rendered control and run to completion.  Every stream granted during
    such a run (before any teardown) is, at the end of the run, either the
    one bound to the video element or already stopped.  A teardown whose
    cleanup finds the references intact then leaves every one of them
    stopped; a teardown whose cleanup finds the references already
    cleared stops nothing, so a stream bound at that moment is left
    running. *)
Theorem granted_streams_accounted v ops stream :
  offeredRun v ops initial = true ->
  existsb isTeardown ops = false ->
  In stream (grants ops) ->
  accounted stream (run v ops initial) /\
  In stream (stoppedStreams (run v (ops ++ [OpTeardown false]) initial)) /\
  stoppedStreams (run v (ops ++ [OpTeardown true]) initial)
  = stoppedStreams (run v ops initial) /\
  (boundStream (run v ops initial) = Some stream ->
   ~ In stream (stoppedStreams (run v ops initial)) ->
   ~ accounted stream (run v (ops ++ [OpTeardown true]) initial)).
Proof.
  intros Ho Ht Hg.
  destruct (run_sound v ops initial (initial_sound v) Ho Ht) as [Hs Hacc].
  specialize (Hacc stream (or_intror Hg)). split; [assumption|].
  rewrite !run_snoc. unfold step.
  assert (Hm : mounted (run v ops initial) = true) by apply Hs. rewrite Hm.
  revert Hacc. clear. generalize (run v ops initial). intros s.
  destruct s as [c vr st ci oc pr er ip ss hp].
  unfold accounted, boundStream. simpl.
  destruct vr as [[[bound|]]|]; simpl; intros H; repeat split;
    try (destruct H as [H | H]; try discriminate; try (now right); try assumption;
         left; congruence);
    try (intros _ Hn [H1 | H1]; [discriminate | contradiction]);
    try (intros H1; discriminate).
Qed.

Lemma granted_streams_accounted_witness :
  offeredRun ContourVariant
    [OpStartCamera (Granted 1%nat); OpCaptureImage true ",";
     OpRetake (Granted 2%nat)] initial = true /\
  accounted 1%nat
    (run ContourVariant
       [OpStartCamera (Granted 1%nat); OpCaptureImage true ",";
        OpRetake (Granted 2%nat)] initial) /\
  accounted 2%nat
    (run ContourVariant
       [OpStartCamera (Granted 1%nat); OpCaptureImage true ",";
        OpRetake (Granted 2%nat)] initial).
Proof.
  split; [reflexivity|]. split.
  - exact (proj1 (granted_streams_accounted ContourVariant
             [OpStartCamera (Granted 1%nat); OpCaptureImage true ",";
              OpRetake (Granted 2%nat)] 1%nat eq_refl eq_refl
             (or_introl eq_refl))).
  - exact (proj1 (granted_streams_accounted ContourVariant
             [OpStartCamera (Granted 1%nat); OpCaptureImage true ",";
              OpRetake (Granted 2%nat)] 2%nat eq_refl eq_refl
             (or_intror (or_introl eq_refl)))).
Defined.

(** ** What is on screen *)

Lemma consistent_one_group v s : consistent v s -> groupsShown s = 1%nat.
Proof.
  destruct s as [c vr st ci oc pr er ip ss hp].
  unfold consistent, coherent, framePresent, groupsShown. simpl.
  intros [[H1 _] _].
  destruct ci as [[|a f]|], st; simpl in *; try reflexivity;
    destruct (H1 eq_refl); discriminate.
Qed.

(** X7: after every sequence of events (handlers run to completion or
    parts of handlers interleaved) in which no granted camera request
    settles while a frame is present and the video element is mounted, and
    in the pixel variant after every sequence of events, exactly one group
    of buttons is on screen: start, or capture, or process with retake. *)
Theorem one_group_shown v events :
  undisturbed v events initial ->
  groupsShown (play v events initial) = 1%nat /\
  rendered (play v events initial) RetakeButton
  = rendered (play v events initial) ProcessButton.
Proof.
  intros Hu. split; [|reflexivity].
  apply (consistent_one_group v).
  apply play_consistent; [apply initial_consistent | exact Hu].
Qed.

Lemma one_group_shown_witness :
  undisturbed ContourVariant (retakeDuringPass (quiet [120 # 1] 0)) initial /\
  groupsShown (play ContourVariant (retakeDuringPass (quiet [120 # 1] 0)) initial)
  = 1%nat.
Proof.
  exact (conj (or_intror eq_refl)
              (proj1 (one_group_shown ContourVariant
                        (retakeDuringPass (quiet [120 # 1] 0))
                        (or_intror eq_refl)))).
Defined.

(** In the contour variant the run of [secondStart] shows two groups. *)
Lemma two_groups_after_second_start :
  groupsShown (run ContourVariant secondStart initial) = 2%nat.
Proof. reflexivity. Qed.

(** The error after [processImage] is the one before, none, the guard's
    message, or the message of the [catch] block. *)
Lemma processImage_error_cases v cvLoaded K s :
  error (processImage v cvLoaded K s) = error s \/
  error (processImage v cvLoaded K s) = None \/
  error (processImage v cvLoaded K s) = Some unavailableMessage \/
  exists msg,
    thrownMessage v K s = Some msg /\
    error (processImage v cvLoaded K s) = Some ("Error processing image: " ++ msg).
Proof.
  destruct (guardFails cvLoaded s) eqn:Hg.
  - rewrite (processImage_guarded _ _ _ _ Hg). right. right. left. reflexivity.
  - rewrite (processImage_passed _ _ _ _ Hg).
    unfold processImage_resume, thrownMessage.
    pose proof (tryBody_outcome v K (entered v s)) as H.
    destruct (tryBody v K (entered v s)) as [[msg | u] s1].
    + right. right. right. exists msg. split; reflexivity.
    + destruct H as [Hw _]. apply workflow_fields in Hw.
      destruct Hw as (_ & _ & _ & _ & He & _ & _). simpl. rewrite He.
      destruct v; [left | right; left]; reflexivity.
Qed.

Lemma step_error_shown v op s :
  error s = None \/ errorShown s = true ->
  error (step v op s) = None \/ errorShown (step v op s) = true.
Proof.
  intros H. unfold step. destruct (mounted s); [|assumption].
  unfold errorShown in *. rewrite commit_error.
  destruct op as [r | context payload | cvLoaded K | r | detached]; simpl.
  - unfold startCamera. destruct r; [destruct (videoRef s)|]; simpl; auto.
  - now rewrite captureImage_error.
  - destruct (processImage_error_cases v cvLoaded K s)
      as [He | [He | [He | [msg [_ He]]]]]; rewrite He; auto.
  - destruct s as [c vr st ci oc pr er ip ss hp].
    destruct v, r, c, vr, (truthy ci); simpl; auto.
  - unfold teardown, detach.
    destruct detached; [rewrite stopCamera_error | simpl; rewrite stopCamera_error];
      assumption.
Qed.

(** X8: every error the component holds is displayed.  After any run the
    error is null or a non-empty message, so the banner, which tests the
    truthiness of [error], is shown exactly when an error is set. *)
Theorem errors_are_shown v ops :
  error (run v ops initial) = None \/ errorShown (run v ops initial) = true.
Proof.
  assert (H : forall s, error s = None \/ errorShown s = true ->
                        error (run v ops s) = None \/ errorShown (run v ops s) = true).
  { induction ops as [|op ops IH]; intros s Hs; simpl; [assumption|].
    apply IH. now apply step_error_shown. }
  apply H. now left.
Qed.

(** ** The result and its display *)

Lemma processImage_objectCount v cvLoaded K s :
  objectCount (processImage v cvLoaded K s) = objectCount s \/
  (v = ContourVariant /\
   objectCount (processImage v cvLoaded K s) = yieldedCount ContourVariant K).
Proof.
  destruct (succeeds v cvLoaded K s) eqn:Hs.
  - destruct v.
    + right. split; [reflexivity|].
      exact (proj1 (processImage_success ContourVariant cvLoaded K s Hs)).
    + left. clear Hs.
      destruct (guardFails cvLoaded s) eqn:Hg.
      * now rewrite (processImage_guarded _ _ _ _ Hg).
      * rewrite (processImage_passed _ _ _ _ Hg). unfold processImage_resume.
        pose proof (tryBody_outcome PixelVariant K (entered PixelVariant s)) as H.
        destruct (tryBody PixelVariant K (entered PixelVariant s)) as [[msg | u] s1];
          destruct H as [_ Hr]; apply results_fields in Hr; simpl; apply Hr.
  - left. pose proof (processImage_failure_results v cvLoaded K s Hs) as H.
    now apply results_fields in H.
Qed.

Lemma yieldedCount_nonneg K : 0 <= yieldedCount ContourVariant K.
Proof. simpl. lia. Qed.

Lemma step_objectCount_nonneg v op s :
  0 <= objectCount s -> 0 <= objectCount (step v op s).
Proof.
  intros H. unfold step. destruct (mounted s); [|assumption].
  assert (Hc : forall x, objectCount (commit v x) = fst (results (commit v x)))
    by reflexivity.
  rewrite Hc, commit_results. unfold results. cbn [fst].
  destruct op as [r | context payload | cvLoaded K | r | detached]; cbn [handler].
  - change (0 <= fst (results (startCamera r s))). now rewrite startCamera_results.
  - change (0 <= fst (results (captureImage context payload s))).
    now rewrite captureImage_results.
  - destruct (processImage_objectCount v cvLoaded K s) as [-> | [_ ->]];
      [assumption | apply yieldedCount_nonneg].
  - destruct v; cbn [retake]; unfold resetCapture, retakeImage.
    + change (0 <= fst (results (startCamera r (commit ContourVariant
                 (setObjectCount 0 (setCapturedImage None s)))))).
      rewrite startCamera_results, commit_results. simpl. lia.
    + change (0 <= fst (results (startCamera r (commit PixelVariant
                 (setProcessedResult None (setCapturedImage None s)))))).
      rewrite startCamera_results, commit_results. simpl. assumption.
  - change (0 <= fst (results (teardown detached s))).
    now rewrite teardown_results.
Qed.

(** X9: the result banner follows the result.  After any run
    [objectCount] is not negative, and in both variants the banner is
    shown exactly when the result is not absent. *)
Theorem result_shown_iff_present v ops :
  0 <= objectCount (run v ops initial) /\
  (resultShown v (run v ops initial) = true <-> ~ resultAbsent v (run v ops initial)).
Proof.
  assert (H : forall s, 0 <= objectCount s -> 0 <= objectCount (run v ops s)).
  { induction ops as [|op ops IH]; intros s Hs; simpl; [assumption|].
    apply IH. now apply step_objectCount_nonneg. }
  specialize (H initial ltac:(simpl; lia)). split; [assumption|].
  destruct v; simpl.
  - rewrite Z.ltb_lt. lia.
  - destruct (processedResult (run PixelVariant ops initial)); split;
      intros; try congruence; try discriminate; try reflexivity.
Qed.

(** X10: a pass that succeeds with count 0 shows no result in the contour
    variant and shows the result 0 in the pixel variant. *)
Theorem zero_count_display v cvLoaded K s :
  succeeds v cvLoaded K s = true ->
  yieldedCount v K = 0 ->
  resultIs v 0 (processImage v cvLoaded K s) /\
  resultShown v (processImage v cvLoaded K s)
  = match v with ContourVariant => false | PixelVariant => true end.
Proof.
  intros Hs Hz.
  destruct (processImage_success v cvLoaded K s Hs) as (Hres & _).
  rewrite Hz in Hres. split; [assumption|].
  destruct v; simpl in *; now rewrite Hres.
Qed.

Lemma zero_count_display_witness :
  succeeds ContourVariant true (quiet [100 # 1; 99 # 1] 0)
           (capturedState ContourVariant) = true /\
  resultShown ContourVariant
    (processImage ContourVariant true (quiet [100 # 1; 99 # 1] 0)
       (capturedState ContourVariant)) = false.
Proof.
  split; [reflexivity|].
  exact (proj2 (zero_count_display ContourVariant true (quiet [100 # 1; 99 # 1] 0)
                  (capturedState ContourVariant) eq_refl eq_refl)).
Defined.

Lemma qualifies_iff a : qualifies a = true <-> (100 # 1 < a)%Q.
Proof.
  unfold qualifies. rewrite negb_true_iff. split.
  - intros H. apply Qnot_le_lt. intros Hle.
    apply Qle_bool_iff in Hle. congruence.
  - intros H. destruct (Qle_bool a (100 # 1)) eqn:Hb; [|reflexivity].
    apply Qle_bool_iff in Hb. exfalso. now apply (Qlt_not_le _ _ H).
Qed.

Lemma qualifying_bounds l : 0 <= qualifying l <= Z.of_nat (List.length l).
Proof.
  unfold qualifying. pose proof (filter_length_le qualifies l). lia.
Qed.

Lemma qualifying_none l :
  Forall (fun a => (a <= 100 # 1)%Q) l -> qualifying l = 0.
Proof.
  unfold qualifying. induction 1 as [|a l Ha Hl IH]; [reflexivity|].
  cbn [filter]. destruct (qualifies a) eqn:Hq; [|exact IH].
  apply qualifies_iff in Hq. exfalso. now apply (Qlt_not_le _ _ Hq).
Qed.

Lemma qualifying_all l :
  Forall (fun a => (100 # 1 < a)%Q) l -> qualifying l = Z.of_nat (List.length l).
Proof.
  unfold qualifying. induction 1 as [|a l Ha Hl IH]; [reflexivity|].
  cbn [filter]. apply qualifies_iff in Ha. rewrite Ha. cbn [List.length]. lia.
Qed.

(** X11: after a successful pass of the contour variant [objectCount] lies
    between 0 and the number of contours found; it is 0 when no contour
    has an area above 100 (an area of exactly 100 does not count) and it
    is the number of contours when all of them do. *)
Theorem contour_count_bounds cvLoaded K s :
  succeeds ContourVariant cvLoaded K s = true ->
  0 <= objectCount (processImage ContourVariant cvLoaded K s)
    <= Z.of_nat (List.length (areas K)) /\
  (Forall (fun a => (a <= 100 # 1)%Q) (areas K) ->
   objectCount (processImage ContourVariant cvLoaded K s) = 0) /\
  (Forall (fun a => (100 # 1 < a)%Q) (areas K) ->
   objectCount (processImage ContourVariant cvLoaded K s)
   = Z.of_nat (List.length (areas K))).
Proof.
  intros Hs. destruct (processImage_success _ _ _ _ Hs) as (Hres & _).
  simpl in Hres. rewrite Hres. fold (qualifying (areas K)).
  split; [apply qualifying_bounds|]. split.
  - apply qualifying_none.
  - apply qualifying_all.
Qed.

Lemma contour_count_bounds_witness :
  succeeds ContourVariant true (quiet [100 # 1; 99 # 1] 0)
           (capturedState ContourVariant) = true /\
  objectCount (processImage ContourVariant true (quiet [100 # 1; 99 # 1] 0)
                 (capturedState ContourVariant)) = 0.
Proof.
  split; [reflexivity|].
  apply (contour_count_bounds true (quiet [100 # 1; 99 # 1] 0)
           (capturedState ContourVariant) eq_refl).
  repeat constructor; discriminate.
Defined.

(** ** The library side of a pass *)

Lemma triple_post {A} E P (m : M A) (Q Q1 : A -> State -> Prop) :
  (forall a s, Q a s -> Q1 a s) -> triple E P m Q -> triple E P m Q1.
Proof.
  intros HQ Hm s HP. specialize (Hm s HP).
  destruct (m s) as [[msg | a] s1]; [assumption | now apply HQ].
Qed.

Lemma triple_exists {A X} E (P : X -> State -> Prop) (m : M A) Q :
  (forall x, triple E (P x) m Q) -> triple E (fun s => exists x, P x s) m Q.
Proof. intros H s [x HP]. now apply (H x). Qed.

Section Ledger.

Variable K : Collaborator.
Variable s0 : State.
Hypothesis tidy0 : tidyHeap s0.

Lemma ledger_entry : ledger s0 [] [] s0.
Proof.
  unfold ledger. split; [|split; [|split; [|split]]].
  - intros h. simpl. tauto.
  - constructor.
  - constructor.
  - lia.
  - reflexivity.
Qed.

Lemma ledger_logCall own gone op s :
  notDelete op = true -> ledger s0 own gone s -> ledger s0 own gone (logCall op s).
Proof.
  intros Hop (H1 & H2 & H3 & H4 & H5). unfold ledger. simpl.
  repeat split; try assumption; try apply H1; try apply H4.
  destruct op; try discriminate; exact H5.
Qed.

Lemma ledger_cvValue {A} own op (a : A) :
  notDelete op = true ->
  triple (nothingReleased s0) (ledger s0 own []) (cvValue K op a)
         (fun x s => x = a /\ ledger s0 own [] s).
Proof.
  intros Hop s Hl. unfold cvValue.
  destruct (throws K op) as [msg|].
  - exists own. now apply ledger_logCall.
  - split; [reflexivity | now apply ledger_logCall].
Qed.

Lemma ledger_cvCall own op :
  notDelete op = true ->
  triple (nothingReleased s0) (ledger s0 own []) (cvValue K op tt)
         (fun _ s => ledger s0 own [] s).
Proof.
  intros Hop. eapply triple_post; [|apply (ledger_cvValue own op tt Hop)].
  intros a s [_ H]. exact H.
Qed.

Lemma ledger_cvNew own op :
  notDelete op = true ->
  triple (nothingReleased s0) (ledger s0 own []) (cvNew K op)
         (fun h s => ledger s0 (own ++ [h]) [] s).
Proof.
  intros Hop s Hl. unfold cvNew.
  destruct (throws K op) as [msg|].
  - exists own. now apply ledger_logCall.
  - apply (ledger_logCall own [] op s Hop) in Hl.
    destruct Hl as (H1 & H2 & H3 & H4 & H5).
    rewrite Forall_forall in H2.
    split; [|split; [|split; [|split]]].
    + intros h. rewrite in_app_iff.
      change (In h (cvNext (heap (logCall op s)) :: cvLive (heap (logCall op s)))
              <-> (In h own \/ In h [cvNext (heap (logCall op s))])
                  \/ In h (cvLive (heap s0))).
      simpl In. rewrite H1. tauto.
    + apply Forall_app. split.
      * apply Forall_forall. intros h Hh. specialize (H2 h Hh). simpl in *. lia.
      * constructor; [simpl in *; lia | constructor].
    + apply NoDup_snoc; [assumption|]. intros Hin. specialize (H2 _ Hin).
      simpl in H2. lia.
    + simpl in *. lia.
    + exact H5.
Qed.

Lemma ledger_lift own gone (f : State -> State) :
  (forall s, heap (f s) = heap s) ->
  triple (nothingReleased s0) (ledger s0 own gone) (lift f)
         (fun _ s => ledger s0 own gone s).
Proof.
  intros Hf s Hl. simpl. unfold ledger in *. now rewrite Hf.
Qed.

Lemma ledger_countLoop fuel :
  forall own i count,
    triple (nothingReleased s0) (ledger s0 own []) (countLoop K fuel i count)
           (fun _ s => exists G, List.length G = Nat.min fuel (List.length (areas K) - i)
                                 /\ ledger s0 (own ++ G) [] s).
Proof.
  induction fuel as [|fuel IH]; intros own i count; cbn [countLoop].
  - eapply triple_bind; [apply ledger_cvValue; reflexivity|].
    intros n. apply triple_pure. intros _ s Hs. simpl.
    exists []. split; [reflexivity|]. now rewrite app_nil_r.
  - eapply triple_bind; [apply ledger_cvValue; reflexivity|].
    intros n. apply triple_pure. intros ->.
    destruct (i <? List.length (areas K))%nat eqn:Hi.
    + apply Nat.ltb_lt in Hi.
      eapply triple_bind; [apply ledger_cvNew; reflexivity|]. intros h.
      eapply triple_bind; [apply ledger_cvValue; reflexivity|].
      intros area. apply triple_pure. intros _.
      eapply triple_post; [|apply IH].
      intros r s [G [HG Hl]]. exists (h :: G). split.
      * cbn [List.length]. rewrite HG. lia.
      * now rewrite <- app_assoc in Hl.
    + apply Nat.ltb_ge in Hi. intros s Hs. unfold ret. cbv beta iota.
      exists []. split; [cbn [List.length]; lia|]. now rewrite app_nil_r.
Qed.

(** Deleting a structure the pass owns cannot throw, and removes that
    structure only. *)
Lemma ledger_cvDelete h own gone :
  triple (nothingReleased s0) (ledger s0 (h :: own) gone) (cvDelete h)
         (fun _ s => ledger s0 own (h :: gone) s).
Proof.
  intros s (H1 & H2 & H3 & H4 & H5). unfold cvDelete.
  assert (Hlive : isLive h s = true).
  { apply isLive_In. apply H1. left. now left. }
  rewrite Hlive. unfold ledger. simpl.
  apply NoDup_cons_iff in H3. destruct H3 as [Hnotin Hnodup].
  pose proof (Forall_inv H2) as Hh. pose proof (Forall_inv_tail H2) as Hown.
  split; [|split; [|split; [|split]]]; try assumption.
  - intros x. rewrite filter_In, H1, negb_true_iff, Nat.eqb_neq. simpl. split.
    + intros [[[Hx | Hx] | Hx] Hne]; [congruence | now left | now right].
    + intros [Hx | Hx]; split; try tauto.
      * intros ->. contradiction.
      * intros ->. unfold tidyHeap in tidy0. rewrite Forall_forall in tidy0.
        specialize (tidy0 _ Hx). lia.
  - now rewrite H5.
Qed.

(** The library side after the [try] block: the pixel variant has deleted
    its two matrices and owns nothing; the contour variant has deleted its
    six structures and still owns one matrix for every contour. *)
Lemma ledger_tryBody v :
  triple (nothingReleased s0) (ledger s0 [] []) (tryBody v K)
         (fun _ s =>
            exists G gone,
              List.length G
              = match v with
                | ContourVariant => List.length (areas K)
                | PixelVariant => 0%nat
                end /\
              List.length gone
              = match v with ContourVariant => 6%nat | PixelVariant => 2%nat end /\
              ledger s0 G gone s).
Proof.
  destruct v; cbn [tryBody].
  - unfold contourBody.
    eapply triple_bind; [apply ledger_cvNew; reflexivity|]. intros mat.
    eapply triple_bind; [apply ledger_cvNew; reflexivity|]. intros gray.
    eapply triple_bind; [apply ledger_cvCall; reflexivity|]. intros ?.
    eapply triple_bind; [apply ledger_cvNew; reflexivity|]. intros blurred.
    eapply triple_bind; [apply ledger_cvCall; reflexivity|]. intros ?.
    eapply triple_bind; [apply ledger_cvCall; reflexivity|]. intros ?.
    eapply triple_bind; [apply ledger_cvNew; reflexivity|]. intros thresh.
    eapply triple_bind; [apply ledger_cvCall; reflexivity|]. intros ?.
    eapply triple_bind; [apply ledger_cvNew; reflexivity|]. intros contours.
    eapply triple_bind; [apply ledger_cvNew; reflexivity|]. intros hierarchy.
    eapply triple_bind; [apply ledger_cvCall; reflexivity|]. intros ?.
    eapply triple_bind; [apply ledger_countLoop|]. intros count.
    apply triple_exists. intros G. apply triple_pure. intros HG.
    rewrite Nat.sub_0_r, Nat.min_id in HG. cbn [app].
    eapply triple_bind; [apply ledger_lift; reflexivity|]. intros ?.
    eapply triple_bind; [apply ledger_cvDelete|]. intros ?.
    eapply triple_bind; [apply ledger_cvDelete|]. intros ?.
    eapply triple_bind; [apply ledger_cvDelete|]. intros ?.
    eapply triple_bind; [apply ledger_cvDelete|]. intros ?.
    eapply triple_bind; [apply ledger_cvDelete|]. intros ?.
    eapply triple_post; [|apply ledger_cvDelete].
    intros ? s Hl. exists G. eexists. split; [exact HG|]. split; [|exact Hl].
    reflexivity.
  - unfold pixelBody.
    eapply triple_bind; [apply ledger_cvNew; reflexivity|]. intros mat.
    eapply triple_bind; [apply ledger_cvNew; reflexivity|]. intros gray.
    eapply triple_bind; [apply ledger_cvCall; reflexivity|]. intros ?.
    eapply triple_bind; [apply ledger_cvValue; reflexivity|]. intros result.
    apply triple_pure. intros _. cbn [app].
    eapply triple_bind; [apply ledger_lift; reflexivity|]. intros ?.
    eapply triple_bind; [apply ledger_cvDelete|]. intros ?.
    eapply triple_post; [|apply ledger_cvDelete].
    intros ? s Hl. exists []. eexists. split; [reflexivity|]. split; [|exact Hl].
    reflexivity.
Qed.

End Ledger.

Lemma ledger_entered v s own gone s1 :
  ledger (entered v s) own gone s1 -> ledger s own gone s1.
Proof. destruct v; exact (fun H => H). Qed.

(** The library side when [processImage] has passed its guard. *)
Lemma processImage_ledger v cvLoaded K s :
  tidyHeap s ->
  guardFails cvLoaded s = false ->
  match thrownMessage v K s with
  | Some _ => nothingReleased s (processImage v cvLoaded K s)
  | None =>
      exists G gone,
        List.length G
        = match v with
          | ContourVariant => List.length (areas K)
          | PixelVariant => 0%nat
          end /\
        List.length gone
        = match v with ContourVariant => 6%nat | PixelVariant => 2%nat end /\
        ledger s G gone (processImage v cvLoaded K s)
  end.
Proof.
  intros Ht Hg. rewrite (processImage_passed _ _ _ _ Hg).
  unfold processImage_resume, thrownMessage.
  assert (Ht1 : tidyHeap (entered v s)) by (destruct v; exact Ht).
  pose proof (ledger_tryBody K (entered v s) Ht1 v (entered v s)
                (ledger_entry (entered v s))) as H.
  destruct (tryBody v K (entered v s)) as [[msg | u] s1].
  - destruct H as [own Hl]. exists own. apply (ledger_entered v). exact Hl.
  - destruct H as (G & gone & HG & Hgone & Hl). exists G, gone.
    split; [exact HG|]. split; [exact Hgone|]. apply (ledger_entered v). exact Hl.
Qed.

Lemma thrownMessage_succeeds v cvLoaded K s :
  succeeds v cvLoaded K s = true ->
  guardFails cvLoaded s = false /\ thrownMessage v K s = None.
Proof.
  unfold succeeds, thrownMessage. intros H. apply andb_true_iff in H.
  destruct H as [Hg Ht]. apply negb_true_iff in Hg. split; [assumption|].
  destruct (tryBody v K (entered v s)) as [[msg | u] s1]; [discriminate | reflexivity].
Qed.

Lemma ledger_live s own gone s1 h :
  ledger s own gone s1 -> isLive h s = true -> isLive h s1 = true.
Proof.
  intros (H1 & _) Hl. apply isLive_In. apply H1. right. now apply isLive_In.
Qed.

Lemma ledger_tidy s own gone s1 : tidyHeap s -> ledger s own gone s1 -> tidyHeap s1.
Proof.
  unfold tidyHeap. intros Ht (H1 & H2 & _ & H4 & _).
  rewrite Forall_forall in *. intros h Hh. apply H1 in Hh. destruct Hh as [Hh | Hh].
  - specialize (H2 h Hh). lia.
  - specialize (Ht h Hh). lia.
Qed.

(** X12: when the collaborator throws, the pass releases nothing.  The
    error becomes the message of the exception with its fixed prefix, the
    processing flag is cleared, the result is the one from before, no
    [delete()] has been called, and every structure that was live before
    the pass is still live. *)
Theorem throw_releases_nothing v cvLoaded K s msg :
  tidyHeap s ->
  guardFails cvLoaded s = false ->
  thrownMessage v K s = Some msg ->
  error (processImage v cvLoaded K s) = Some ("Error processing image: " ++ msg) /\
  isProcessing (processImage v cvLoaded K s) = false /\
  results (processImage v cvLoaded K s) = results s /\
  deleted (cvCalls (heap (processImage v cvLoaded K s)))
  = deleted (cvCalls (heap s)) /\
  (forall h, isLive h s = true -> isLive h (processImage v cvLoaded K s) = true).
Proof.
  intros Ht Hg Hm.
  pose proof (processImage_ledger v cvLoaded K s Ht Hg) as Hl. rewrite Hm in Hl.
  destruct Hl as [own Hl].
  assert (Hf : succeeds v cvLoaded K s = false).
  { unfold succeeds. unfold thrownMessage in Hm.
    destruct (tryBody v K (entered v s)) as [[m | u] s1]; [|discriminate].
    apply andb_false_r. }
  split; [|split; [|split; [|split]]].
  - rewrite (processImage_passed _ _ _ _ Hg). unfold processImage_resume.
    unfold thrownMessage in Hm.
    destruct (tryBody v K (entered v s)) as [[m | u] s1]; [|discriminate].
    simpl. congruence.
  - rewrite (processImage_passed _ _ _ _ Hg). unfold processImage_resume.
    destruct (tryBody v K (entered v s)) as [[m | u] s1]; reflexivity.
  - now apply processImage_failure_results.
  - destruct Hl as (_ & _ & _ & _ & H5). exact H5.
  - intros h. now apply (ledger_live s own []).
Qed.

Lemma throw_releases_nothing_witness :
  tidyHeap (capturedState ContourVariant) /\
  thrownMessage ContourVariant (cvtColorFails "boom") (capturedState ContourVariant)
  = Some "boom" /\
  error (processImage ContourVariant true (cvtColorFails "boom")
           (capturedState ContourVariant)) = Some "Error processing image: boom".
Proof.
  assert (Ht : tidyHeap (capturedState ContourVariant)) by constructor.
  split; [exact Ht|]. split; [reflexivity|].
  exact (proj1 (throw_releases_nothing ContourVariant true (cvtColorFails "boom")
                  (capturedState ContourVariant) "boom" Ht eq_refl eq_refl)).
Defined.

(** X13: a successful pass of the pixel variant releases what it
    allocated: it has called [delete()] twice and the live structures are
    the ones that were live before. *)
Theorem pixel_pass_releases_all cvLoaded K s :
  tidyHeap s ->
  succeeds PixelVariant cvLoaded K s = true ->
  (forall h, isLive h (processImage PixelVariant cvLoaded K s) = isLive h s) /\
  List.length (deleted (cvCalls (heap (processImage PixelVariant cvLoaded K s))))
  = (2 + List.length (deleted (cvCalls (heap s))))%nat.
Proof.
  intros Ht Hs. destruct (thrownMessage_succeeds _ _ _ _ Hs) as [Hg Hm].
  pose proof (processImage_ledger PixelVariant cvLoaded K s Ht Hg) as Hl.
  rewrite Hm in Hl. destruct Hl as (G & gone & HG & Hgone & Hl).
  destruct G; [|discriminate]. destruct Hl as (H1 & _ & _ & _ & H5). split.
  - intros h. apply eq_true_iff_eq. rewrite !isLive_In, H1. simpl. tauto.
  - rewrite H5, length_app, Hgone. reflexivity.
Qed.

Lemma pixel_pass_releases_all_witness :
  tidyHeap (capturedState PixelVariant) /\
  succeeds PixelVariant true (quiet [] 42) (capturedState PixelVariant) = true /\
  isLive 0%nat (processImage PixelVariant true (quiet [] 42) (capturedState PixelVariant))
  = isLive 0%nat (capturedState PixelVariant).
Proof.
  assert (Ht : tidyHeap (capturedState PixelVariant)) by constructor.
  split; [exact Ht|]. split; [reflexivity|].
  exact (proj1 (pixel_pass_releases_all true (quiet [] 42)
                  (capturedState PixelVariant) Ht eq_refl) 0%nat).
Defined.

(** X14: a successful pass of the contour variant deletes its six named
    structures and nothing else.  The matrices handed out by
    [contours.get(i)], one for every contour, are new and stay live. *)
Theorem contour_pass_keeps_contour_matrices cvLoaded K s :
  tidyHeap s ->
  succeeds ContourVariant cvLoaded K s = true ->
  List.length (deleted (cvCalls (heap (processImage ContourVariant cvLoaded K s))))
  = (6 + List.length (deleted (cvCalls (heap s))))%nat /\
  exists G,
    NoDup G /\
    List.length G = List.length (areas K) /\
    (forall h, In h G -> ~ In h (cvLive (heap s))) /\
    (forall h, In h (cvLive (heap (processImage ContourVariant cvLoaded K s)))
               <-> In h G \/ In h (cvLive (heap s))).
Proof.
  intros Ht Hs. destruct (thrownMessage_succeeds _ _ _ _ Hs) as [Hg Hm].
  pose proof (processImage_ledger ContourVariant cvLoaded K s Ht Hg) as Hl.
  rewrite Hm in Hl. destruct Hl as (G & gone & HG & Hgone & Hl).
  destruct Hl as (H1 & H2 & H3 & H4 & H5). split.
  - rewrite H5, length_app, Hgone. reflexivity.
  - exists G. split; [exact H3|]. split; [exact HG|]. split; [|exact H1].
    intros h Hh Hin. unfold tidyHeap in Ht. rewrite Forall_forall in Ht, H2.
    specialize (H2 h Hh). specialize (Ht h Hin). lia.
Qed.

Lemma contour_pass_keeps_contour_matrices_witness :
  tidyHeap (capturedState ContourVariant) /\
  succeeds ContourVariant true (quiet [150 # 1; 3 # 1] 0)
           (capturedState ContourVariant) = true /\
  List.length (deleted (cvCalls (heap
     (processImage ContourVariant true (quiet [150 # 1; 3 # 1] 0)
        (capturedState ContourVariant)))))
  = (6 + List.length (deleted (cvCalls (heap (capturedState ContourVariant)))))%nat.
Proof.
  assert (Ht : tidyHeap (capturedState ContourVariant)) by constructor.
  split; [exact Ht|]. split; [reflexivity|].
  exact (proj1 (contour_pass_keeps_contour_matrices true (quiet [150 # 1; 3 # 1] 0)
                  (capturedState ContourVariant) Ht eq_refl)).
Defined.

Lemma processImage_keeps_live v cvLoaded K s :
  tidyHeap s ->
  tidyHeap (processImage v cvLoaded K s) /\
  forall h, isLive h s = true -> isLive h (processImage v cvLoaded K s) = true.
Proof.
  intros Ht. destruct (guardFails cvLoaded s) eqn:Hg.
  - rewrite (processImage_guarded _ _ _ _ Hg). split; [exact Ht | auto].
  - pose proof (processImage_ledger v cvLoaded K s Ht Hg) as Hl.
    destruct (thrownMessage v K s).
    + destruct Hl as [own Hl]. split.
      * now apply (ledger_tidy s own []).
      * intros h. now apply (ledger_live s own []).
    + destruct Hl as (G & gone & _ & _ & Hl). split.
      * now apply (ledger_tidy s G gone).
      * intros h. now apply (ledger_live s G gone).
Qed.

Lemma commit_heap v s : heap (commit v s) = heap s.
Proof.
  unfold commit, attachVideo.
  destruct (mounted s), v, (truthy (capturedImage s)), (videoRef s); reflexivity.
Qed.

Lemma step_heap v op s :
  (forall cvLoaded K, op <> OpProcessImage cvLoaded K) -> heap (step v op s) = heap s.
Proof.
  intros Hop. unfold step. destruct (mounted s); [|reflexivity].
  rewrite commit_heap.
  destruct s as [c vr st ci oc pr er ip ss hp].
  destruct op as [r | context payload | cvLoaded K | r | detached]; simpl.
  - destruct r, vr; reflexivity.
  - destruct vr as [[[bound|]]|], c, context; reflexivity.
  - exfalso. now apply (Hop cvLoaded K).
  - destruct v, r, c, vr, (truthy ci); reflexivity.
  - destruct detached, vr as [[[bound|]]|]; reflexivity.
Qed.

Lemma step_keeps_live v op s :
  tidyHeap s ->
  tidyHeap (step v op s) /\
  forall h, isLive h s = true -> isLive h (step v op s) = true.
Proof.
  intros Ht.
  destruct op as [r | context payload | cvLoaded K | r | detached];
    try (unfold tidyHeap, isLive; rewrite step_heap by discriminate;
         split; [exact Ht | auto]; fail).
  unfold step. destruct (mounted s); [|split; [exact Ht | auto]].
  unfold tidyHeap, isLive. rewrite commit_heap.
  apply (processImage_keeps_live v cvLoaded K s Ht).
Qed.

Lemma run_keeps_live v ops :
  forall s,
    tidyHeap s ->
    tidyHeap (run v ops s) /\
    forall h, isLive h s = true -> isLive h (run v ops s) = true.
Proof.
  induction ops as [|op ops IH]; intros s Ht; simpl; [split; auto|].
  destruct (step_keeps_live v op s Ht) as [Ht1 Hl1].
  destruct (IH (step v op s) Ht1) as [Ht2 Hl2]. split; auto.
Qed.

(** X15: no operation releases a structure left by an earlier pass.
    Over any run every live handle was handed out by the counter, and a
    structure that is live at some point of a run is live at every later
    point. *)
Theorem leaked_structures_stay v ops later h :
  tidyHeap (run v ops initial) /\
  (isLive h (run v ops initial) = true ->
   isLive h (run v (ops ++ later) initial) = true).
Proof.
  assert (Ht : tidyHeap initial) by constructor.
  destruct (run_keeps_live v ops initial Ht) as [Ht1 _].
  split; [exact Ht1|]. unfold run at 2. rewrite fold_left_app.
  apply (run_keeps_live v later (run v ops initial) Ht1).
Qed.

Lemma leaked_structures_stay_witness :
  isLive 0%nat
    (run PixelVariant
       [OpStartCamera (Granted 1%nat); OpCaptureImage true ",";
        OpProcessImage true (cvtColorFails "boom")] initial) = true /\
  isLive 0%nat
    (run PixelVariant
       ([OpStartCamera (Granted 1%nat); OpCaptureImage true ",";
         OpProcessImage true (cvtColorFails "boom")]
        ++ [OpProcessImage true (quiet [] 42); OpTeardown false]) initial) = true.
Proof.
  split; [reflexivity|].
  exact (proj2 (leaked_structures_stay PixelVariant
                  [OpStartCamera (Granted 1%nat); OpCaptureImage true ",";
                   OpProcessImage true (cvtColorFails "boom")]
                  [OpProcessImage true (quiet [] 42); OpTeardown false] 0%nat)
               eq_refl).
Defined.

(** ** Processing and the controls *)

Lemma processImage_awaiting_loaded v cvLoaded K s :
  processImage_awaiting v cvLoaded (Some K) s = processImage v cvLoaded K s.
Proof.
  unfold processImage_awaiting, processImage.
  destruct (processImage_begin v cvLoaded s) as [s1 [|]]; reflexivity.
Qed.

Lemma processImage_awaiting_pending v cvLoaded s :
  processImage_awaiting v cvLoaded None s = fst (processImage_begin v cvLoaded s).
Proof.
  unfold processImage_awaiting.
  destruct (processImage_begin v cvLoaded s) as [s1 [|]]; reflexivity.
Qed.

(** X16: processing and the controls.  Whether the awaited image loads
    or not, and whatever the library answers, [processImage] leaves the
    bound stream and the stopped streams alone and every button rendered
    as before.  Started while no pass is in flight, it leaves the process
    button enabled when the guard stops it or once the image has loaded
    and the second half has run; when the guard passes and the image never
    loads, the handler stays suspended and the button stays disabled. *)
Theorem processImage_keeps_controls v cvLoaded load s :
  isProcessing s = false ->
  (forall c, rendered (processImage_awaiting v cvLoaded load s) c = rendered s c) /\
  boundStream (processImage_awaiting v cvLoaded load s) = boundStream s /\
  stoppedStreams (processImage_awaiting v cvLoaded load s) = stoppedStreams s /\
  disabled (processImage_awaiting v cvLoaded load s) ProcessButton
  = match load with
    | Some _ => false
    | None => negb (guardFails cvLoaded s)
    end.
Proof.
  intros Hp.
  assert (Hcam :
    videoRef (processImage_awaiting v cvLoaded load s) = videoRef s /\
    isStreaming (processImage_awaiting v cvLoaded load s) = isStreaming s /\
    capturedImage (processImage_awaiting v cvLoaded load s) = capturedImage s /\
    stoppedStreams (processImage_awaiting v cvLoaded load s) = stoppedStreams s).
  { destruct load as [K|].
    - rewrite processImage_awaiting_loaded.
      destruct (processImage_camera v cvLoaded K s) as (_ & H2 & H3 & H4 & H5).
      repeat split; assumption.
    - rewrite processImage_awaiting_pending.
      destruct (processImage_begin_camera v cvLoaded s) as (_ & H2 & H3 & H4 & H5).
      repeat split; assumption. }
  destruct Hcam as (Hv & Hs & Hc & Hss).
  split; [|split; [|split]].
  - intros c. unfold rendered. now rewrite Hs, Hc.
  - unfold boundStream. now rewrite Hv.
  - exact Hss.
  - simpl. destruct load as [K|].
    + rewrite processImage_awaiting_loaded.
      destruct (guardFails cvLoaded s) eqn:Hg.
      * now rewrite (processImage_guarded _ _ _ _ Hg).
      * rewrite (processImage_passed _ _ _ _ Hg). unfold processImage_resume.
        destruct (tryBody v K (entered v s)) as [[m | u] s1]; reflexivity.
    + rewrite processImage_awaiting_pending.
      unfold processImage_begin, guardFails.
      destruct (negb cvLoaded || negb (truthy (capturedImage s))), v; simpl;
        try exact Hp; reflexivity.
Qed.

Lemma processImage_keeps_controls_witness :
  isProcessing (capturedState ContourVariant) = false /\
  disabled (processImage_awaiting ContourVariant true None
              (capturedState ContourVariant)) ProcessButton = true /\
  disabled (processImage_awaiting ContourVariant true (Some (cvtColorFails "boom"))
              (capturedState ContourVariant)) ProcessButton = false.
Proof.
  split; [reflexivity|]. split.
  - exact (proj2 (proj2 (proj2 (processImage_keeps_controls ContourVariant true None
                                  (capturedState ContourVariant) eq_refl)))).
  - exact (proj2 (proj2 (proj2 (processImage_keeps_controls ContourVariant true
                                  (Some (cvtColorFails "boom"))
                                  (capturedState ContourVariant) eq_refl)))).
Defined.

(** X17: a rejected camera request through the start button changes the
    error and nothing else.  The message is the same whatever the reason
    of the rejection, it is displayed, and the start button stays on
    screen, so the request can be repeated. *)
Theorem rejected_start_can_retry v reason s :
  mounted s = true ->
  rendered s StartButton = true ->
  error (step v (OpStartCamera (Rejected reason)) s) = Some cameraErrorMessage /\
  errorShown (step v (OpStartCamera (Rejected reason)) s) = true /\
  rendered (step v (OpStartCamera (Rejected reason)) s) StartButton = true /\
  step v (OpStartCamera (Rejected reason)) s
  = commit v (setError (Some cameraErrorMessage) s) /\
  results (step v (OpStartCamera (Rejected reason)) s) = results s /\
  isStreaming (step v (OpStartCamera (Rejected reason)) s) = false /\
  capturedImage (step v (OpStartCamera (Rejected reason)) s) = capturedImage s /\
  stoppedStreams (step v (OpStartCamera (Rejected reason)) s) = stoppedStreams s.
Proof.
  intros Hm Hr. destruct s as [c vr st ci oc pr er ip ss hp].
  unfold mounted in Hm. simpl in Hm, Hr. subst c.
  destruct st; [discriminate|]. simpl in Hr.
  destruct (truthy ci) eqn:Hc; [discriminate|].
  assert (Hs : step v (OpStartCamera (Rejected reason))
                 (mkState true vr false ci oc pr er ip ss hp)
               = commit v (setError (Some cameraErrorMessage)
                             (mkState true vr false ci oc pr er ip ss hp)))
    by reflexivity.
  rewrite Hs. unfold commit, mounted, attachVideo, errorShown, rendered. simpl.
  rewrite Hc. destruct v, vr; simpl; rewrite ?Hc; repeat split.
Qed.

Lemma rejected_start_can_retry_witness :
  mounted initial = true /\
  rendered initial StartButton = true /\
  rendered (step ContourVariant (OpStartCamera (Rejected "NotFoundError")) initial)
           StartButton = true.
Proof.
  split; [reflexivity|]. split; [reflexivity|].
  apply (rejected_start_can_retry ContourVariant "NotFoundError" initial);
    reflexivity.
Defined.

Lemma processImage_resume_quiet v K s :
  neverThrows K ->
  resultIs v (yieldedCount v K) (processImage_resume v K s) /\
  isProcessing (processImage_resume v K s) = false /\
  error (processImage_resume v K s) = error s /\
  videoRef (processImage_resume v K s) = videoRef s /\
  isStreaming (processImage_resume v K s) = isStreaming s /\
  capturedImage (processImage_resume v K s) = capturedImage s.
Proof.
  intros Hq. unfold processImage_resume.
  destruct (tryBody_returns v K s Hq) as [s1 Hs1].
  pose proof (tryBody_outcome v K s) as H. rewrite Hs1 in *.
  destruct H as [Hw Hr]. apply workflow_fields in Hw.
  destruct Hw as (_ & Hv & Hst & Hc & He & _ & _).
  apply newResults_resultIs in Hr.
  repeat split; assumption.
Qed.

(** X18: a retake does not cancel a pass that is in flight.  When the
    retake (granted) runs between the two halves of [processImage] and
    the library does not throw, the pass still sets the result for the
    frame that is gone: the workflow is streaming with the new stream, has
    no frame, and holds (and, when positive, shows) the count of the old
    frame. *)
Theorem retake_does_not_cancel_pass v K stream s :
  mounted s = true ->
  truthy (capturedImage s) = true ->
  neverThrows K ->
  snd (processImage_begin v true s) = true /\
  capturedImage
    (processImage_resume v K
       (step v (OpRetake (Granted stream)) (fst (processImage_begin v true s)))) = None /\
  isStreaming
    (processImage_resume v K
       (step v (OpRetake (Granted stream)) (fst (processImage_begin v true s)))) = true /\
  boundStream
    (processImage_resume v K
       (step v (OpRetake (Granted stream)) (fst (processImage_begin v true s))))
  = Some stream /\
  resultIs v (yieldedCount v K)
    (processImage_resume v K
       (step v (OpRetake (Granted stream)) (fst (processImage_begin v true s)))) /\
  (0 < yieldedCount v K ->
   resultShown v
     (processImage_resume v K
        (step v (OpRetake (Granted stream)) (fst (processImage_begin v true s))))
   = true).
Proof.
  intros Hm Hf Hq.
  assert (Hb : processImage_begin v true s
               = (entered v s, true)).
  { unfold processImage_begin. rewrite Hf. destruct v; reflexivity. }
  rewrite Hb. cbn [fst snd].
  destruct (processImage_resume_quiet v K
              (step v (OpRetake (Granted stream)) (entered v s)) Hq)
    as (Hres & _ & _ & Hv & Hst & Hc).
  assert (Hstep :
    capturedImage (step v (OpRetake (Granted stream)) (entered v s)) = None /\
    isStreaming (step v (OpRetake (Granted stream)) (entered v s)) = true /\
    videoRef (step v (OpRetake (Granted stream)) (entered v s))
    = Some (mkVideo (Some stream))).
  { clear - Hm. destruct s as [c vr st ci oc pr er ip ss hp].
    unfold mounted in Hm. simpl in Hm. subst c.
    destruct v, vr; repeat split. }
  destruct Hstep as (H1 & H2 & H3).
  split; [reflexivity|]. split; [congruence|]. split; [congruence|].
  split; [unfold boundStream; now rewrite Hv, H3|]. split; [exact Hres|].
  intros Hpos. destruct v; simpl in *; rewrite Hres; [|reflexivity].
  now apply Z.ltb_lt.
Qed.

Lemma retake_does_not_cancel_pass_witness :
  mounted (capturedState PixelVariant) = true /\
  truthy (capturedImage (capturedState PixelVariant)) = true /\
  resultIs PixelVariant 42
    (processImage_resume PixelVariant (quiet [] 42)
       (step PixelVariant (OpRetake (Granted 2%nat))
          (fst (processImage_begin PixelVariant true (capturedState PixelVariant))))).
Proof.
  split; [reflexivity|]. split; [reflexivity|].
  apply (retake_does_not_cancel_pass PixelVariant (quiet [] 42) 2%nat
           (capturedState PixelVariant));
    [reflexivity | reflexivity | intros op; reflexivity].
Defined.
